(** * machine-monitor: the journal streaming engine, the SSH dialer and the
      Machine reconciler, embedded as interaction programs.

    The Go functions are translated into small command trees ([prog]): every
    interaction with the outside (the local file system, the SSH library, the
    context, the logger, the Kubernetes client) is a [call] node whose
    continuation receives the value the Go call returned.  A blocked Go call is
    a node whose answer has not arrived yet, so "does not return until ..."
    is a statement about the paths of the tree.

    Two semantics are given to the trees:
    - [exec]: the paths of the tree, against an arbitrary environment;
    - [runs]: the paths that a model of the environment ([world]: local files
      and descriptors, the remote files, the context) allows.  *)

From Stdlib Require Import ZArith String Ascii List.
From Stdlib.Strings Require Import Byte.
From stdpp Require Import base option list gmap strings pretty.

#[local] Set Warnings "-register-all".

Local Open Scope string_scope.

(** ** Go values *)

Module Go.

(** The error numbers of the operating system that the model tells apart. *)
Inductive errno : Set :=
| ENOENT | EACCES | EEXIST | EIO | ENOTDIR | EMFILE.

(** One operand of [fmt.Errorf]: the verbs [%s], [%q] and [%w]; [ArgV] is an
    error printed with [%s] (its text is kept, it is not wrapped). *)
Inductive fmtarg (E : Type) : Type :=
| ArgS (s : string)
| ArgQ (s : string)
| ArgW (e : E)
| ArgV (e : E).
Arguments ArgS {E} s.
Arguments ArgQ {E} s.
Arguments ArgW {E} e.
Arguments ArgV {E} e.

(** Go [error] values; the nil error is [None : option error].  [Errorf]
    keeps the format string and the operands instead of the rendered text. *)
Inductive error : Type :=
| PathError (op path : string) (no : errno)   (* *fs.PathError of package os *)
| EOF                                         (* io.EOF *)
| Canceled                                    (* context.Canceled *)
| DeadlineExceeded                            (* context.DeadlineExceeded *)
| ExitError (status : Z)                      (* *ssh.ExitError *)
| ExitMissingError                            (* *ssh.ExitMissingError *)
| StatusError (reason : string)               (* *apierrors.StatusError *)
| ErrorString (msg : string)                  (* any other library error *)
| Errorf (format : string) (args : list (fmtarg error)).

(** [(value, err)] results of Go calls: exactly one of the two is set. *)
Inductive result (A : Type) : Type :=
| Ok (a : A)
| Fail (e : error).
Arguments Ok {A} a.
Arguments Fail {A} e.

(** [err != nil] *)
Definition nonnil (e : option error) : bool :=
  match e with Some _ => true | None => false end.

(** [err != io.EOF], on a non-nil error. *)
Definition is_EOF (e : error) : bool :=
  match e with EOF => true | _ => false end.

(** [os.IsNotExist]: looks through a [*PathError] only, and is false on nil. *)
Definition IsNotExist (e : option error) : bool :=
  match e with
  | Some (PathError _ _ ENOENT) => true
  | _ => false
  end.

(** [apierrors.IsNotFound]: false on nil. *)
Definition IsNotFound (e : option error) : bool :=
  match e with
  | Some (StatusError reason) => String.eqb reason "NotFound"
  | _ => false
  end.

(** [errors.Unwrap]: the operand of the [%w] verb. *)
Fixpoint first_wrapped (args : list (fmtarg error)) : option error :=
  match args with
  | [] => None
  | ArgW e :: _ => Some e
  | _ :: rest => first_wrapped rest
  end.

Definition Unwrap (e : error) : option error :=
  match e with
  | Errorf _ args => first_wrapped args
  | _ => None
  end.

(** The strings an error's text quotes with [%q], through the [%w] and [%s]
    operands as well: what the rendered message shows of captured output. *)
Fixpoint quoted (e : error) : list string :=
  match e with
  | Errorf _ args =>
      (fix go (l : list (fmtarg error)) : list string :=
         match l with
         | [] => []
         | ArgQ s :: l' => s :: go l'
         | ArgW e' :: l' => (quoted e' ++ go l')%list
         | ArgV e' :: l' => (quoted e' ++ go l')%list
         | ArgS _ :: l' => go l'
         end) args
  | _ => []
  end.

(** The chain [e, Unwrap e, Unwrap (Unwrap e), ...] that [errors.Is] walks. *)
Fixpoint chain (e : error) : list error :=
  e :: match e with
       | Errorf _ args =>
           (fix go (l : list (fmtarg error)) : list error :=
              match l with
              | [] => []
              | ArgW e' :: _ => chain e'
              | _ :: l' => go l'
              end) args
       | _ => []
       end.

(** The flags of [os.OpenFile] (package syscall, linux). *)
Definition O_RDONLY : Z := 0.
Definition O_WRONLY : Z := 1.
Definition O_RDWR : Z := 2.
Definition O_CREATE : Z := 64.
Definition O_EXCL : Z := 128.
Definition O_TRUNC : Z := 512.
Definition O_APPEND : Z := 1024.

Definition has_flag (flag bit : Z) : bool := negb (Z.land flag bit =? 0)%Z.

(** The access mode is the low two bits. *)
Definition writable (flag : Z) : bool := negb (Z.land flag 3 =? O_RDONLY)%Z.

(** [ssh.SIGTERM] *)
Definition SIGTERM : string := "TERM".

End Go.
Export Go.

(** ** Calls and programs *)

Definition fd := nat.
Definition session := nat.
Definition client := nat.

(** What a session's [Stdout] or [Stderr] field is set to.  The
    [bytes.Buffer] a function declares is attached to the one session that
    function creates, and is named by it. *)
Inductive writer : Set :=
| Discard                   (* io.Discard *)
| ToFile (f : fd)           (* an *os.File *)
| ToBuffer.                 (* &sshErrWriter *)

(** [clusterv1.MachineAddress] and the part of [clusterv1.Machine] read. *)
Record MachineAddress : Set := {
  Type_ : string;
  Address : string;
}.

Record Machine : Set := {
  Namespace : string;
  Name : string;
  Addresses : list MachineAddress;      (* Status.Addresses *)
}.

(** The interactions of the program with the outside, indexed by the type of
    the value the Go call returns. *)
Inductive call : Type -> Type :=
(* package os *)
| OsStat (path : string) : call (option error)
| OsOpenFile (path : string) (flag perm : Z) : call (result fd)
| FileClose (f : fd) : call (option error)
(* golang.org/x/crypto/ssh *)
| NewSession (c : client) : call (result session)
| SetStdout (s : session) (w : writer) : call unit
| SetStderr (s : session) (w : writer) : call unit
| SessRun (s : session) (cmd : string) : call (option error)
| SessStart (s : session) (cmd : string) : call (option error)
| SessSignal (s : session) (sig : string) : call (option error)
| SessClose (s : session) : call (option error)
| BufferString (s : session) : call string
(* the select over errCh (fed by session.Wait) and ctx.Done: [Some e] is
   the receive of [e] from errCh, [None] is ctx.Done *)
| SelectWaitOrDone (s : session) : call (option (option error))
(* the plain receive from errCh *)
| RecvWait (s : session) : call (option error)
(* package context *)
| CtxErr : call (option error)
| CtxCause : call (option error)
(* logr *)
| LogInfo (v : Z) (msg : string) (kvs : list (string * string)) : call unit
| LogError (e : error) (msg : string) : call unit
(* controller-runtime client and the ssh dial of the reconciler *)
| ClientGet (namespace name : string) : call (Machine * option error)
| ParsePrivateKey (key : list byte) : call (result nat)
| SshDial (network addr user : string) (signer : nat) : call (result client)
| ClientClose (c : client) : call (option error).

Inductive prog (R : Type) : Type :=
| Ret (r : R)
| Call {A : Type} (c : call A) (k : A -> prog R).
Arguments Ret {R} r.
Arguments Call {R A} c k.

Fixpoint bind {R S : Type} (p : prog R) (f : R -> prog S) : prog S :=
  match p with
  | Ret r => f r
  | Call c k => Call c (fun a => bind (k a) f)
  end.

Definition perform {A : Type} (c : call A) : prog A := Call c Ret.

Notation "x <- p ;; q" := (bind p (fun x => q))
  (at level 100, p at next level, right associativity).
Notation "p ;;; q" := (bind p (fun _ => q))
  (at level 100, q at level 200, right associativity).

(** The trace of a run: each call with the value it returned. *)
Inductive event : Type :=
| EStat (path : string) (r : option error)
| EOpenFile (path : string) (flag perm : Z) (r : result fd)
| EFileClose (f : fd) (r : option error)
| ENewSession (c : client) (r : result session)
| ESetStdout (s : session) (w : writer)
| ESetStderr (s : session) (w : writer)
| ERun (s : session) (cmd : string) (r : option error)
| EStart (s : session) (cmd : string) (r : option error)
| ESignal (s : session) (sig : string) (r : option error)
| ESessClose (s : session) (r : option error)
| EBufferString (s : session) (r : string)
| ESelect (s : session) (r : option (option error))
| ERecvWait (s : session) (r : option error)
| ECtxErr (r : option error)
| ECtxCause (r : option error)
| ELogInfo (v : Z) (msg : string) (kvs : list (string * string))
| ELogError (e : error) (msg : string)
| EClientGet (namespace name : string) (r : Machine * option error)
| EParsePrivateKey (key : list byte) (r : result nat)
| ESshDial (network addr user : string) (signer : nat) (r : result client)
| EClientClose (c : client) (r : option error).

Definition ev {A : Type} (c : call A) : A -> event :=
  match c in call T return T -> event with
  | OsStat p => EStat p
  | OsOpenFile p flag perm => EOpenFile p flag perm
  | FileClose f => EFileClose f
  | NewSession c => ENewSession c
  | SetStdout s w => fun _ => ESetStdout s w
  | SetStderr s w => fun _ => ESetStderr s w
  | SessRun s cmd => ERun s cmd
  | SessStart s cmd => EStart s cmd
  | SessSignal s sig => ESignal s sig
  | SessClose s => ESessClose s
  | BufferString s => EBufferString s
  | SelectWaitOrDone s => ESelect s
  | RecvWait s => ERecvWait s
  | CtxErr => ECtxErr
  | CtxCause => ECtxCause
  | LogInfo v msg kvs => fun _ => ELogInfo v msg kvs
  | LogError e msg => fun _ => ELogError e msg
  | ClientGet ns n => EClientGet ns n
  | ParsePrivateKey key => EParsePrivateKey key
  | SshDial network addr user signer => ESshDial network addr user signer
  | ClientClose c => EClientClose c
  end.

(** [exec p t r]: [p] can make the calls of [t], with the answers recorded
    there, and then return [r].  The answers are arbitrary. *)
Fixpoint exec {R : Type} (p : prog R) (t : list event) (r : R) : Prop :=
  match p with
  | Ret r0 => t = [] /\ r = r0
  | Call c k => exists a t', t = ev c a :: t' /\ exec (k a) t' r
  end.

(** An environment that answers every call: the answer may depend on the
    call and on the number of calls made so far. *)
Definition oracle : Type := forall A : Type, nat -> call A -> A.

(** The run of [p] against an oracle: the trace and the value returned. *)
Fixpoint run {R : Type} (o : oracle) (n : nat) (p : prog R) : list event * R :=
  match p with
  | Ret r => ([], r)
  | Call c k =>
      let a := o _ n c in
      let '(t, r) := run o (S n) (k a) in
      (ev c a :: t, r)
  end.

(** ** internal/journald/remote.go *)

Module journald.

Definition streamJournalAsRootCommand (cursorFilePath : string) : string :=
  "sudo journalctl --follow --no-tail --cursor-file=" ++ cursorFilePath.

Definition removeCursorFileCommand (cursorFilePath : string) : string :=
  "rm --force " ++ cursorFilePath.

(** The guarded [log.Error] after a [session.Close]:
    [if closeSessionErr != nil && closeSessionErr != io.EOF]. *)
Definition logSessionCloseErr (closeSessionErr : option error) (msg : string)
  : prog unit :=
  match closeSessionErr with
  | Some e => if is_EOF e then Ret tt else perform (LogError e msg)
  | None => Ret tt
  end.

(** [if err != nil { log.Error(err, msg) }] *)
Definition logErr (err : option error) (msg : string) : prog unit :=
  match err with
  | Some e => perform (LogError e msg)
  | None => Ret tt
  end.

Definition resetCursorFile (cl : client) (cursorFilePath : string)
  : prog (option error) :=
  r <- perform (NewSession cl) ;;
  match r with
  | Fail createSessionErr =>
      Ret (Some (Errorf "failed to create new SSH session: %w"
                        [ArgW createSessionErr]))
  | Ok session =>
      perform (SetStdout session Discard) ;;;
      perform (SetStderr session ToBuffer) ;;;
      let command := removeCursorFileCommand cursorFilePath in
      perform (LogInfo 1 "running command on remote host"
                       [("command", command)]) ;;;
      resetCursorErr <- perform (SessRun session command) ;;
      match resetCursorErr with
      | Some e =>
          stderr <- perform (BufferString session) ;;
          Ret (Some (Errorf
                 "failed to run command %q on remote host: %w: stderr=%q"
                 [ArgQ command; ArgW e; ArgQ stderr]))
      | None =>
          closeSessionErr <- perform (SessClose session) ;;
          logSessionCloseErr closeSessionErr "failed to close session" ;;;
          Ret None
      end
  end.

Definition stream (cl : client) (cursorFilePath localJournalFilePath : string)
  : prog (option error) :=
  r <- perform (NewSession cl) ;;
  match r with
  | Fail createSessionErr =>
      Ret (Some (Errorf "failed to create new SSH session: %w"
                        [ArgW createSessionErr]))
  | Ok session =>
      (* We only append to the local journal file. *)
      o <- perform (OsOpenFile localJournalFilePath
                      (Z.lor (Z.lor O_CREATE O_WRONLY) O_APPEND) 420) ;;
      match o with
      | Fail openFileErr =>
          Ret (Some (Errorf "failed to open local journal file: %w"
                            [ArgW openFileErr]))
      | Ok outWriter =>
          perform (SetStdout session (ToFile outWriter)) ;;;
          perform (SetStderr session ToBuffer) ;;;
          let command := streamJournalAsRootCommand cursorFilePath in
          perform (LogInfo 1 "running command on remote host"
                           [("command", command)]) ;;;
          sessionErr <- perform (SessStart session command) ;;
          match sessionErr with
          | Some e =>
              closeOutWriterErr <- perform (FileClose outWriter) ;;
              logErr closeOutWriterErr "failed to close local journal file" ;;;
              stderr <- perform (BufferString session) ;;
              Ret (Some (Errorf
                     "failed to run command %q on remote host: %w: stderr=%q"
                     [ArgQ command; ArgW e; ArgQ stderr]))
          | None =>
              sel <- perform (SelectWaitOrDone session) ;;
              waitErr <-
                match sel with
                | Some waitErr =>
                    (* The session finished. *)
                    Ret waitErr
                | None =>
                    (* Context cancelled: interrupt the session. *)
                    signalErr <- perform (SessSignal session SIGTERM) ;;
                    match signalErr with
                    | Some e =>
                        perform (LogError e
                                   "failed to send signal to SSH session") ;;;
                        closeSessionErr <- perform (SessClose session) ;;
                        logErr closeSessionErr "failed to close SSHsession"
                    | None => Ret tt
                    end ;;;
                    (* Wait for the session, and the goroutine, to finish. *)
                    perform (RecvWait session)
                end ;;
              closeSessionErr <- perform (SessClose session) ;;
              logSessionCloseErr closeSessionErr
                                 "failed to close SSH session" ;;;
              closeOutWriterErr <- perform (FileClose outWriter) ;;
              logErr closeOutWriterErr "failed to close local journal file" ;;;
              ctxErr <- perform CtxErr ;;
              match ctxErr, waitErr with
              | None, Some e =>
                  Ret (Some (Errorf
                    "unexpected error running journalctl on remote host: %w"
                    [ArgW e]))
              | _, _ => Ret None
              end
          end
      end
  end.

Definition StreamFromRemote (cl : client)
  (cursorFilePath localJournalFilePath : string) : prog (option error) :=
  err <- perform (OsStat localJournalFilePath) ;;
  reset <-
    (if IsNotExist err then
       perform (LogInfo 1
         "local journal file does not exist, removing remote journald cursor file"
         [("cursorFilePath", cursorFilePath)]) ;;;
       resetCursorFile cl cursorFilePath
     else Ret None) ;;
  match reset with
  | Some resetCursorErr =>
      Ret (Some (Errorf "failed to reset journald cursor file: %w"
                        [ArgW resetCursorErr]))
  | None =>
      streamErr <- stream cl cursorFilePath localJournalFilePath ;;
      match streamErr with
      | Some e =>
          Ret (Some (Errorf "failed to stream journal from remote: %w"
                            [ArgW e]))
      | None => Ret None
      end
  end.

End journald.

(** ** The environment *)

(** An open file description: the path, the flags it was opened with and
    the offset of the next write. *)
Record handle : Set := {
  h_path : string;
  h_flag : Z;
  h_off : nat;
}.

Record world : Type := {
  files : gmap string (list byte);     (* the local files and their content *)
  fds : gmap fd handle;                (* the open local descriptors *)
  sinks : gmap session writer;         (* the Stdout of the sessions *)
  remote : gset string;                (* the files on the remote host *)
  ctx_err : option error;              (* ctx.Err() *)
}.

Definition set_files (fs : gmap string (list byte)) (w : world) : world :=
  {| files := fs; fds := fds w; sinks := sinks w; remote := remote w;
     ctx_err := ctx_err w |}.

Definition set_fds (m : gmap fd handle) (w : world) : world :=
  {| files := files w; fds := m; sinks := sinks w; remote := remote w;
     ctx_err := ctx_err w |}.

Definition set_sinks (m : gmap session writer) (w : world) : world :=
  {| files := files w; fds := fds w; sinks := m; remote := remote w;
     ctx_err := ctx_err w |}.

Definition set_remote (r : gset string) (w : world) : world :=
  {| files := files w; fds := fds w; sinks := sinks w; remote := r;
     ctx_err := ctx_err w |}.

Definition set_ctx_err (e : option error) (w : world) : world :=
  {| files := files w; fds := fds w; sinks := sinks w; remote := remote w;
     ctx_err := e |}.

(** *** The local file system *)

(** [write(2)]: with [O_APPEND] the data goes to the end of the file,
    otherwise it overwrites from the offset of the description. *)
Definition write_through (h : handle) (data content : list byte) : list byte :=
  if has_flag (h_flag h) O_APPEND then content ++ data
  else take (h_off h) content ++ data
         ++ drop (h_off h + length data) content.

Definition advance (h : handle) (n : nat) : handle :=
  {| h_path := h_path h; h_flag := h_flag h; h_off := h_off h + n |}.

(** [open(2)] on the files: [None] when the call must fail. *)
Definition open_files (fs : gmap string (list byte)) (p : string) (flag : Z)
  : option (gmap string (list byte)) :=
  match fs !! p with
  | None => if has_flag flag O_CREATE then Some (<[p := []]> fs) else None
  | Some _ =>
      if has_flag flag O_CREATE && has_flag flag O_EXCL then None
      else if has_flag flag O_TRUNC && writable flag
           then Some (<[p := []]> fs)
           else Some fs
  end.

(** What [os.Stat] may answer: the truth, or a failure of the lookup itself
    with another error number. *)
Definition stat_answer (fs : gmap string (list byte)) (p : string)
  (a : option error) : Prop :=
  match fs !! p with
  | Some _ => a = None
  | None => a = Some (PathError "stat" p ENOENT)
  end
  \/ exists no, no <> ENOENT /\ a = Some (PathError "stat" p no).

(** The output of the command of session [s] reaches the writer set as its
    [Stdout]. *)
Definition deliver (s : session) (data : list byte) (w : world) : world :=
  match sinks w !! s with
  | Some (ToFile f) =>
      match fds w !! f with
      | Some h =>
          match files w !! h_path h with
          | Some content =>
              if writable (h_flag h) then
                set_files (<[h_path h := write_through h data content]>
                             (files w))
                  (set_fds (<[f := advance h (length data)]> (fds w)) w)
              else w
          | None => w
          end
      | None => w
      end
  | _ => w
  end.

(** *** The remote host *)

Definition is_space (c : ascii) : bool := Ascii.eqb c " "%char.

(** The words of a command line, as the remote shell splits it. *)
Fixpoint fields (cur s : string) : list string :=
  match s with
  | EmptyString => if String.eqb cur "" then [] else [cur]
  | String c s' =>
      if is_space c
      then (if String.eqb cur "" then fields "" s' else cur :: fields "" s')
      else fields (cur ++ String c "") s'
  end.

(** A path that the shell reads as one word. *)
Fixpoint no_space (s : string) : bool :=
  match s with
  | EmptyString => true
  | String c s' => negb (is_space c) && no_space s'
  end.

Definition single_word (p : string) : Prop := p <> "" /\ no_space p = true.

(** [rm]: the operands are removed; a missing operand is an error unless
    forced. *)
Definition rm (force : bool) (paths : list string) (fs : gset string)
  : Z * gset string :=
  ((if force || forallb (fun p => bool_decide (p ∈ fs)) paths
    then 0 else 1)%Z,
   fs ∖ list_to_set paths).

(** The exit status and the effect of a command the engine runs to its end
    on the remote host. *)
Definition remote_exec (cmd : string) (fs : gset string) : Z * gset string :=
  match fields "" cmd with
  | "rm" :: "--force" :: paths => rm true paths fs
  | "rm" :: "-f" :: paths => rm true paths fs
  | "rm" :: paths => rm false paths fs
  | _ => (127%Z, fs)
  end.

(** *** The steps of the environment *)

(** The context may be cancelled at any moment, and stays cancelled. *)
Definition cancel_may (w w1 : world) : Prop :=
  w1 = w \/ (ctx_err w = None /\ exists e, w1 = set_ctx_err (Some e) w).

(** The end of the command of session [s]: its output has been written to
    the session's Stdout, and it may have left files on the remote host. *)
Definition wait_effect (s : session) (w w' : world) : Prop :=
  exists data grown, w' = set_remote (remote w ∪ grown) (deliver s data w).

(** [op_step c w a w']: in the world [w] the call [c] may return [a] and
    leave the world [w']. *)
Definition op_step {A : Type} (c : call A) (w : world) : A -> world -> Prop :=
  match c in call T return T -> world -> Prop with
  | OsStat p => fun a w' => w' = w /\ stat_answer (files w) p a
  | OsOpenFile p flag perm => fun a w' =>
      match a with
      | Ok f =>
          fds w !! f = None /\
          exists fs', open_files (files w) p flag = Some fs' /\
            w' = set_files fs'
                   (set_fds (<[f := {| h_path := p; h_flag := flag;
                                        h_off := 0 |}]> (fds w)) w)
      | Fail _ => w' = w
      end
  | FileClose f => fun _ w' => w' = set_fds (delete f (fds w)) w
  | NewSession _ => fun a w' =>
      match a with
      | Ok s => sinks w !! s = None /\
                w' = set_sinks (<[s := Discard]> (sinks w)) w
      | Fail _ => w' = w
      end
  | SetStdout s wr => fun _ w' => w' = set_sinks (<[s := wr]> (sinks w)) w
  | SetStderr _ _ => fun _ w' => w' = w
  | SessRun _ cmd => fun a w' =>
      exists files', w' = set_remote files' w /\
        match a with
        | None =>
            (* the command ran to its end and exited with status 0 *)
            remote_exec cmd (remote w) = (0%Z, files')
        | Some (ExitError n) =>
            n <> 0%Z /\ remote_exec cmd (remote w) = (n, files')
        | Some _ =>
            (* the transport failed: the remote state is unknown *)
            True
        end
  | SessStart _ _ => fun _ w' => w' = w
  | SessSignal _ _ => fun _ w' => w' = w
  | SessClose _ => fun _ w' => w' = w
  | BufferString _ => fun _ w' => w' = w
  | SelectWaitOrDone s => fun a w' =>
      match a with
      | Some _ => wait_effect s w w'
      | None => ctx_err w <> None /\ w' = w
      end
  | RecvWait s => fun _ w' => wait_effect s w w'
  | CtxErr => fun a w' => a = ctx_err w /\ w' = w
  | CtxCause => fun a w' => (a = None <-> ctx_err w = None) /\ w' = w
  | LogInfo _ _ _ => fun _ w' => w' = w
  | LogError _ _ => fun _ w' => w' = w
  | ClientGet _ _ => fun _ w' => w' = w
  | ParsePrivateKey _ => fun _ w' => w' = w
  | SshDial _ _ _ _ => fun _ w' => w' = w
  | ClientClose _ => fun _ w' => w' = w
  end.

(** [runs p w t r w']: from the world [w], [p] makes the calls of [t], each
    recorded with the world it was made in, returns [r] and leaves [w']. *)
Fixpoint runs {R : Type} (p : prog R) (w : world) (t : list (world * event))
  (r : R) (w' : world) : Prop :=
  match p with
  | Ret r0 => t = [] /\ r = r0 /\ w' = w
  | Call c k =>
      exists a w1 w2 t',
        cancel_may w w1 /\ op_step c w1 a w2 /\
        t = (w1, ev c a) :: t' /\ runs (k a) w2 t' r w'
  end.

(** ** internal/ssh *)

Module ssh.

(** client.go: [NewClient] parses the key and dials the machine. *)
Definition NewClient (machineIP : string) (port : Z) (user : string)
  (privateKey : list byte) : prog (result client) :=
  r <- perform (ParsePrivateKey privateKey) ;;
  match r with
  | Fail err =>
      Ret (Fail (Errorf "error parsing private key: %s" [ArgV err]))
  | Ok signer =>
      d <- perform (SshDial "tcp" (machineIP ++ ":" ++ pretty port)
                            user signer) ;;
      match d with
      | Fail err =>
          Ret (Fail (Errorf "error dialing SSH server: %s" [ArgV err]))
      | Ok cl => Ret (Ok cl)
      end
  end.

(** *** context.go: [DialContext]

    The function and the goroutine it starts are two threads that meet on
    the unbuffered channel [ch]; both also listen on [ctx.Done].  The state
    holds the control point of each, the connection and the context. *)

Inductive conn_state : Set :=
| NoConn          (* d.DialContext has not returned a connection *)
| Open
| Closed.

(** The control point of the calling goroutine. *)
Inductive main_pc : Type :=
| MDial                                      (* line 34: d.DialContext *)
| MSelect                                    (* line 57: blocked in select *)
| MReturned (cl : option client) (err : option error).

(** The control point of the goroutine of lines 43-56; at [GSelect] it
    holds [result{client, err}]. *)
Inductive go_pc : Type :=
| GNotStarted
| GHandshake                                 (* line 45: ssh.NewClientConn *)
| GSelect (cl : option client) (err : option error)   (* line 49 *)
| GFinished.

Record dstate : Type := {
  mpc : main_pc;
  gpc : go_pc;
  conn : conn_state;
  cause : option error;                      (* context.Cause(ctx) *)
}.

Inductive label : Type :=
| Cancel (e : error)        (* the context is cancelled *)
| DialOk                    (* line 34 returns a connection; line 43: go *)
| DialFail (e : error)      (* lines 35-37 *)
| HandshakeOk               (* lines 45-48: client = ssh.NewClient(...) *)
| HandshakeFail (e : error) (* line 45: err != nil; the library has closed
                               the connection *)
| Handoff                   (* line 50 meets line 58 *)
| MainDone                  (* lines 60-61 *)
| GoDone.                   (* lines 51-54 *)

Definition init : dstate :=
  {| mpc := MDial; gpc := GNotStarted; conn := NoConn; cause := None |}.

(** The client made from the one connection of the call. *)
Definition the_client : client := 0%nat.

(** One step.  A goroutine blocked in a select proceeds as soon as one of
    its cases can: after the cancellation each side takes [ctx.Done], so the
    two sides meet on [ch] only while the context is not cancelled. *)
Definition dial_step (s : dstate) (l : label) : option dstate :=
  match l with
  | Cancel e =>
      match cause s with
      | None => Some {| mpc := mpc s; gpc := gpc s; conn := conn s;
                        cause := Some e |}
      | Some _ => None
      end
  | DialOk =>
      match mpc s with
      | MDial => Some {| mpc := MSelect; gpc := GHandshake; conn := Open;
                         cause := cause s |}
      | _ => None
      end
  | DialFail e =>
      match mpc s with
      | MDial => Some {| mpc := MReturned None (Some e); gpc := gpc s;
                         conn := conn s; cause := cause s |}
      | _ => None
      end
  | HandshakeOk =>
      match gpc s with
      | GHandshake => Some {| mpc := mpc s;
                              gpc := GSelect (Some the_client) None;
                              conn := conn s; cause := cause s |}
      | _ => None
      end
  | HandshakeFail e =>
      match gpc s with
      | GHandshake => Some {| mpc := mpc s; gpc := GSelect None (Some e);
                              conn := Closed; cause := cause s |}
      | _ => None
      end
  | Handoff =>
      match mpc s, gpc s, cause s with
      | MSelect, GSelect cl err, None =>
          Some {| mpc := MReturned cl err; gpc := GFinished;
                  conn := conn s; cause := cause s |}
      | _, _, _ => None
      end
  | MainDone =>
      match mpc s, cause s with
      | MSelect, Some c =>
          Some {| mpc := MReturned None (Some c); gpc := gpc s;
                  conn := conn s; cause := cause s |}
      | _, _ => None
      end
  | GoDone =>
      match gpc s, cause s with
      | GSelect cl _, Some _ =>
          Some {| mpc := mpc s; gpc := GFinished;
                  conn := match cl with
                          | Some _ => Closed     (* client.Close() *)
                          | None => conn s
                          end;
                  cause := cause s |}
      | _, _ => None
      end
  end.

(** A schedule is the list of the steps taken, in order. *)
Fixpoint dial_run (s : dstate) (ls : list label) : option dstate :=
  match ls with
  | [] => Some s
  | l :: ls' =>
      match dial_step s l with
      | Some s' => dial_run s' ls'
      | None => None
      end
  end.


Definition is_cancel (l : label) : bool :=
  match l with Cancel _ => true | _ => false end.

End ssh.

(** ** The Machine reconciler *)

Module controller.

(** [ctrl.Result] *)
Record Result : Set := {
  Requeue : bool;
  RequeueAfter : Z;
}.

(** [ctrl.Result{}] *)
Definition Result_zero : Result := {| Requeue := false; RequeueAfter := 0 |}.

(** The fields of [MachineReconciler] that [Reconcile] reads. *)
Record MachineReconciler : Set := {
  SSHPrivateKey : list byte;
  SSHUser : string;
  SSHPort : Z;
  LocalJournalDirectory : string;
  RemoteJournaldCursorFilePath : string;
}.

(** [clusterv1.MachineInternalIP] *)
Definition MachineInternalIP : string := "InternalIP".

(** Lines 554-560: the address of the first entry of type InternalIP, the
    empty string when there is none. *)
Fixpoint machineIP_of (addrs : list MachineAddress) : string :=
  match addrs with
  | [] => ""
  | addr :: rest =>
      if String.eqb (Type_ addr) MachineInternalIP then Address addr
      else machineIP_of rest
  end.

Section Reconcile.

(** [path.Join] of the Go library. *)
Variable path_Join : string -> string -> string.

(** [Reconcile], with the body of the not-found branch (lines 548-551) as
    [onNotFound]. *)
Definition ReconcileWith (onNotFound : prog (Result * option error))
  (r : MachineReconciler) (namespace name : string)
  : prog (Result * option error) :=
  cause <- perform CtxCause ;;
  match cause with
  | Some c => Ret (Result_zero, Some c)
  | None =>
      got <- perform (ClientGet namespace name) ;;
      let machine := fst got in
      let err := snd got in
      match err with
      | Some e =>
          Ret (Result_zero,
               Some (Errorf "failed to get machine %s: %w"
                            [ArgS (namespace ++ "/" ++ name); ArgW e]))
      | None =>
          if IsNotFound err then onNotFound
          else
            let machineIP := machineIP_of (Addresses machine) in
            if String.eqb machineIP "" then Ret (Result_zero, None)
            else
              perform (LogInfo 1 "Machine IP found"
                         [("name", Name machine); ("ip", machineIP)]) ;;;
              c <- ssh.NewClient machineIP (SSHPort r) (SSHUser r)
                                 (SSHPrivateKey r) ;;
              match c with
              | Fail e =>
                  Ret (Result_zero,
                       Some (Errorf "failed to create SSH client: %w"
                                    [ArgW e]))
              | Ok sshClient =>
                  let localJournalFilePath :=
                    path_Join (LocalJournalDirectory r)
                      (Namespace machine ++ "-" ++ Name machine ++ ".log") in
                  err <- journald.StreamFromRemote sshClient
                           (RemoteJournaldCursorFilePath r)
                           localJournalFilePath ;;
                  (* the deferred sshClient.Close() *)
                  closeErr <- perform (ClientClose sshClient) ;;
                  journald.logErr closeErr "failed to close SSH client" ;;;
                  match err with
                  | Some e =>
                      Ret (Result_zero,
                           Some (Errorf
                                   "failed to import journal from remote: %w"
                                   [ArgW e]))
                  | None => Ret (Result_zero, None)
                  end
              end
      end
  end.

Definition Reconcile : MachineReconciler -> string -> string ->
                       prog (Result * option error) :=
  ReconcileWith (Ret (Result_zero, None)).

End Reconcile.

End controller.

(** ** Scripted environments

    An environment given by the answer to each kind of call; the sessions
    and descriptors it hands out are numbered by the position of the call. *)

Record answers : Type := {
  on_stat : option error;
  on_new_session : bool;                (* does client.NewSession succeed *)
  on_open : option error;               (* the error of os.OpenFile *)
  on_run : option error;
  on_start : option error;
  on_select : option (option error);
  on_signal : option error;
  on_recv_wait : option error;
  on_sess_close : option error;
  on_file_close : option error;
  on_ctx_err : option error;
  on_stderr : string;
  on_get : Machine * option error;
}.

Definition scripted (s : answers) : oracle := fun A n c =>
  match c in call T return T with
  | OsStat _ => on_stat s
  | OsOpenFile _ _ _ =>
      match on_open s with Some e => Fail e | None => Ok n end
  | FileClose _ => on_file_close s
  | NewSession _ =>
      if on_new_session s then Ok n else Fail (ErrorString "ssh: rejected")
  | SetStdout _ _ => tt
  | SetStderr _ _ => tt
  | SessRun _ _ => on_run s
  | SessStart _ _ => on_start s
  | SessSignal _ _ => on_signal s
  | SessClose _ => on_sess_close s
  | BufferString _ => on_stderr s
  | SelectWaitOrDone _ => on_select s
  | RecvWait _ => on_recv_wait s
  | CtxErr => on_ctx_err s
  | CtxCause => on_ctx_err s
  | LogInfo _ _ _ => tt
  | LogError _ _ => tt
  | ClientGet _ _ => on_get s
  | ParsePrivateKey _ => Ok 0%nat
  | SshDial _ _ _ _ => Ok n
  | ClientClose _ => None
  end.

Definition no_machine : Machine :=
  {| Namespace := ""; Name := ""; Addresses := [] |}.

(** The remote command runs until the context is cancelled, is interrupted
    and ends with the status of the signal. *)
Definition cancelled_answers : answers :=
  {| on_stat := None; on_new_session := true; on_open := None;
     on_run := None; on_start := None; on_select := None;
     on_signal := None; on_recv_wait := Some (ExitError 143);
     on_sess_close := Some EOF; on_file_close := None;
     on_ctx_err := Some Canceled; on_stderr := "";
     on_get := (no_machine, None) |}.

(** The remote command fails on its own: [journalctl] exits with status 1
    after it wrote to its standard error. *)
Definition failing_answers : answers :=
  {| on_stat := None; on_new_session := true; on_open := None;
     on_run := None; on_start := None;
     on_select := Some (Some (ExitError 1));
     on_signal := None; on_recv_wait := None;
     on_sess_close := Some EOF; on_file_close := None;
     on_ctx_err := None; on_stderr := "No journal files were found.";
     on_get := (no_machine, None) |}.

(** The local journal directory is not writable. *)
Definition unwritable_answers : answers :=
  {| on_stat := Some (PathError "stat" "/var/log/mm/default-m1.log" EACCES);
     on_new_session := true;
     on_open := Some (PathError "open" "/var/log/mm/default-m1.log" EACCES);
     on_run := None; on_start := None; on_select := Some None;
     on_signal := None; on_recv_wait := None;
     on_sess_close := None; on_file_close := None;
     on_ctx_err := None; on_stderr := "";
     on_get := (no_machine, None) |}.

(** ** Auxiliary definitions for the statements *)

Import journald.
Import ssh.

(** What [StreamFromRemote] returns for the result of [stream]
    (lines 44-47). *)
Definition wrap_stream (streamErr : option error) : option error :=
  match streamErr with
  | Some e => Some (Errorf "failed to stream journal from remote: %w" [ArgW e])
  | None => None
  end.

(** The log entry that precedes the reset (lines 32-36). *)
Definition reset_log (cursor : string) : event :=
  ELogInfo 1
    "local journal file does not exist, removing remote journald cursor file"
    [("cursorFilePath", cursor)].

(** The kinds of calls [resetCursorFile] makes. *)
Definition reset_event (e : event) : bool :=
  match e with
  | ENewSession _ _ | ESetStdout _ _ | ESetStderr _ _ | ELogInfo _ _ _
  | ERun _ _ _ | EBufferString _ _ | ESessClose _ _ | ELogError _ _ => true
  | _ => false
  end.

(** The kinds of calls [stream] makes: all but the existence check, the
    run of a command to its end and the calls of the reconciler. *)
Definition stream_event (e : event) : bool :=
  match e with
  | EStat _ _ | ERun _ _ _ | ECtxCause _ | EClientGet _ _ _
  | EParsePrivateKey _ _ | ESshDial _ _ _ _ _ | EClientClose _ _ => false
  | _ => true
  end.


(** The flags [stream] opens the journal with. *)
Definition journal_flag : Z := Z.lor (Z.lor O_CREATE O_WRONLY) O_APPEND.

(** The paths of the concrete runs. *)
Definition demo_path : string := "/var/log/mm/default-m1.log".

Definition demo_cursor : string := "$HOME/mm.cursor".

(** No local journal, a stale cursor file on the remote host. *)
Definition stale_world : world :=
  {| files := ∅; fds := ∅; sinks := ∅; remote := {[demo_cursor]};
     ctx_err := None |}.

(** A journal that holds the first line, after an attempt that was
    interrupted. *)
Definition resumed_world : world :=
  {| files := {[demo_path := list_byte_of_string "A
"]};
     fds := ∅; sinks := ∅; remote := {[demo_cursor]}; ctx_err := None |}.

(** What holds of the connection of [DialContext] at each pair of control
    points; the pairs left out are not reachable. *)
Definition dial_inv (s : dstate) : Prop :=
  match gpc s, mpc s with
  | GNotStarted, MDial => conn s = NoConn
  | GNotStarted, MReturned None (Some _) => conn s = NoConn
  | GHandshake, MSelect => conn s = Open
  | GHandshake, MReturned None (Some _) => conn s = Open
  | GSelect (Some _) None, MSelect => conn s = Open
  | GSelect (Some _) None, MReturned None (Some _) => conn s = Open
  | GSelect None (Some _), MSelect => conn s = Closed
  | GSelect None (Some _), MReturned None (Some _) => conn s = Closed
  | GFinished, MSelect => conn s = Closed
  | GFinished, MReturned (Some _) None => conn s = Open
  | GFinished, MReturned None (Some _) => conn s = Closed
  | _, _ => False
  end.



(** ** Definitions for the further properties *)

(** The file name of the journal of a machine: the [fmt.Sprintf] of lines
    587-591 of [Reconcile]. *)
Definition journalFileName (namespace name : string) : string :=
  namespace ++ "-" ++ name ++ ".log".

(** What [Reconcile] returns for the result of [StreamFromRemote]
    (lines 600-606). *)
Definition wrap_import (err : option error) : option error :=
  match err with
  | Some e =>
      Some (Errorf "failed to import journal from remote: %w" [ArgW e])
  | None => None
  end.

(** The guarded log of the deferred [sshClient.Close] (lines 577-581). *)
Definition close_client_log (closeErr : option error) : list event :=
  match closeErr with
  | Some e => [ELogError e "failed to close SSH client"]
  | None => []
  end.

(** The calls of [Reconcile] up to the log of the address it found
    (lines 535-571), for the machine [m] that the get returned. *)
Definition reconcile_prefix (namespace name : string) (m : Machine)
  : list event :=
  [ECtxCause None; EClientGet namespace name (m, None);
   ELogInfo 1 "Machine IP found"
     [("name", Name m); ("ip", controller.machineIP_of (Addresses m))]].

(** The calls of the reconciler itself: none of them is made by
    [StreamFromRemote]. *)
Definition reconciler_event (e : event) : bool :=
  match e with
  | ECtxCause _ | EClientGet _ _ _ | EParsePrivateKey _ _
  | ESshDial _ _ _ _ _ | EClientClose _ _ => true
  | _ => false
  end.

(** [e0] is the error that the call of the event returned. *)
Definition failed_with (e0 : error) (e : event) : Prop :=
  match e with
  | EStat _ (Some e) | EFileClose _ (Some e) | ERun _ _ (Some e)
  | EStart _ _ (Some e) | ESignal _ _ (Some e) | ESessClose _ (Some e)
  | ESelect _ (Some (Some e)) | ERecvWait _ (Some e)
  | ECtxErr (Some e) | ECtxCause (Some e) | EClientGet _ _ (_, Some e)
  | EClientClose _ (Some e) => e = e0
  | EOpenFile _ _ _ (Fail e) => e = e0
  | ENewSession _ (Fail e) => e = e0
  | EParsePrivateKey _ (Fail e) => e = e0
  | ESshDial _ _ _ _ (Fail e) => e = e0
  | _ => False
  end.

(** The remote command fails, and so do both closes. *)
Definition close_failing_answers : answers :=
  {| on_stat := None; on_new_session := true; on_open := None;
     on_run := None; on_start := None;
     on_select := Some (Some (ExitError 1));
     on_signal := None; on_recv_wait := None;
     on_sess_close := Some (ErrorString "ssh: channel closed");
     on_file_close := Some (PathError "close" "/var/log/mm/default-m1.log" EIO);
     on_ctx_err := None; on_stderr := "";
     on_get := (no_machine, None) |}.

(** A machine with an internal address, a reconciler, and an environment
    in which the machine accepts the connection and refuses the session. *)
Definition machine_m1 : Machine :=
  {| Namespace := "default"; Name := "m1";
     Addresses := [ {| Type_ := "Hostname"; Address := "m1" |};
                    {| Type_ := "InternalIP"; Address := "10.0.0.7" |} ] |}.

Definition demo_reconciler : controller.MachineReconciler :=
  {| controller.SSHPrivateKey := []; controller.SSHUser := "core";
     controller.SSHPort := 22;
     controller.LocalJournalDirectory := "/var/log/mm";
     controller.RemoteJournaldCursorFilePath := "$HOME/mm.cursor" |}.

Definition demo_join (dir file : string) : string := dir ++ "/" ++ file.

Definition refusing_answers : answers :=
  {| on_stat := None; on_new_session := false; on_open := None;
     on_run := None; on_start := None; on_select := Some None;
     on_signal := None; on_recv_wait := None; on_sess_close := None;
     on_file_close := None; on_ctx_err := None; on_stderr := "";
     on_get := (machine_m1, None) |}.

(** The errors that occurred in a schedule of [DialContext]. *)
Definition raised (ls : list label) (e : error) : Prop :=
  In (DialFail e) ls \/ In (HandshakeFail e) ls \/ In (Cancel e) ls.

(** Where the errors held in a state of [DialContext] come from. *)
Definition dial_history (ls : list label) (s : dstate) : Prop :=
  (forall cl e, mpc s = MReturned cl (Some e) -> raised ls e) /\
  (forall cl e, gpc s = GSelect cl (Some e) -> In (HandshakeFail e) ls) /\
  (forall e, cause s = Some e -> In (Cancel e) ls).

(** A side of [DialContext] that has gone on without the other has done so
    through [ctx.Done]. *)
Definition dial_live (s : dstate) : Prop :=
  match mpc s, gpc s with
  | MReturned _ _, GHandshake | MReturned _ _, GSelect _ _
  | MSelect, GFinished => cause s <> None
  | _, _ => True
  end.

(** ** internal/ssh/client.go, the version with a bastion

    [NewClient], [NewClientWithBastion] and [NewSSHConfig] as they stand in
    the later version of the file, over the calls they make. *)

Module bastion.

(** [*ssh.ClientConfig]: the user and the signer of the public-key method;
    the host key is not checked. *)
Record ClientConfig : Set := {
  User : string;
  Signer : nat;
}.

Definition netconn := nat.

Inductive dcall : Type -> Type :=
(* this package's DialContext *)
| DialContext (network addr : string) (config : ClientConfig)
    : dcall (result client)
(* bastionClient.DialContext: a connection through the bastion *)
| ClientDialContext (c : client) (network addr : string)
    : dcall (result netconn)
(* ssh.NewClientConn and ssh.NewClient on its results *)
| NewClientConn (c : netconn) (addr : string) (config : ClientConfig)
    : dcall (result client)
| ParsePrivateKey (key : list byte) : dcall (result nat)
(* the closes the package could call *)
| ClientClose (c : client) : dcall (option error)
| ConnClose (c : netconn) : dcall (option error).

Inductive dprog (R : Type) : Type :=
| DRet (r : R)
| DCall {A : Type} (c : dcall A) (k : A -> dprog R).
Arguments DRet {R} r.
Arguments DCall {R A} c k.

Fixpoint dbind {R S : Type} (p : dprog R) (f : R -> dprog S) : dprog S :=
  match p with
  | DRet r => f r
  | DCall c k => DCall c (fun a => dbind (k a) f)
  end.

Definition dperform {A : Type} (c : dcall A) : dprog A := DCall c DRet.

Inductive devent : Type :=
| EDialContext (network addr : string) (config : ClientConfig)
    (r : result client)
| EClientDialContext (c : client) (network addr : string) (r : result netconn)
| ENewClientConn (c : netconn) (addr : string) (config : ClientConfig)
    (r : result client)
| EParsePrivateKey (key : list byte) (r : result nat)
| EClientClose (c : client) (r : option error)
| EConnClose (c : netconn) (r : option error).

Definition dev {A : Type} (c : dcall A) : A -> devent :=
  match c in dcall T return T -> devent with
  | DialContext network addr config => EDialContext network addr config
  | ClientDialContext c network addr => EClientDialContext c network addr
  | NewClientConn c addr config => ENewClientConn c addr config
  | ParsePrivateKey key => EParsePrivateKey key
  | ClientClose c => EClientClose c
  | ConnClose c => EConnClose c
  end.

Fixpoint dexec {R : Type} (p : dprog R) (t : list devent) (r : R) : Prop :=
  match p with
  | DRet r0 => t = [] /\ r = r0
  | DCall c k => exists a t', t = dev c a :: t' /\ dexec (k a) t' r
  end.

(** [fmt.Sprintf("%s:%d", host, port)] *)
Definition hostport (host : string) (port : Z) : string :=
  host ++ ":" ++ pretty port.

Definition NewClient (machineConfig : ClientConfig) (machineHost : string)
  (machinePort : Z) : dprog (result client) :=
  dbind (dperform (DialContext "tcp" (hostport machineHost machinePort)
                               machineConfig))
    (fun r =>
       match r with
       | Fail err => DRet (Fail (Errorf "error dialing machine: %w" [ArgW err]))
       | Ok cl => DRet (Ok cl)
       end).

Definition NewClientWithBastion (bastionConfig : ClientConfig)
  (bastionHost : string) (bastionPort : Z) (machineConfig : ClientConfig)
  (machineHost : string) (machinePort : Z) : dprog (result client) :=
  dbind (dperform (DialContext "tcp" (hostport bastionHost bastionPort)
                               bastionConfig))
    (fun r =>
       match r with
       | Fail err => DRet (Fail (Errorf "error dialing bastion: %w" [ArgW err]))
       | Ok bastionClient =>
           dbind (dperform (ClientDialContext bastionClient "tcp"
                              (hostport machineHost machinePort)))
             (fun r =>
                match r with
                | Fail err =>
                    DRet (Fail (Errorf "error dialing machine via bastion: %w"
                                       [ArgW err]))
                | Ok bastionConn =>
                    dbind (dperform (NewClientConn bastionConn
                                       (hostport machineHost machinePort)
                                       machineConfig))
                      (fun r =>
                         match r with
                         | Fail err =>
                             DRet (Fail (Errorf
                               "error creating new client connection: %w"
                               [ArgW err]))
                         | Ok machineClient => DRet (Ok machineClient)
                         end)
                end)
       end).

Definition NewSSHConfig (user : string) (privateKey : list byte)
  : dprog (result ClientConfig) :=
  dbind (dperform (ParsePrivateKey privateKey))
    (fun r =>
       match r with
       | Fail err =>
           DRet (Fail (Errorf "error parsing private key: %s" [ArgV err]))
       | Ok signer => DRet (Ok {| User := user; Signer := signer |})
       end).

End bastion.

(** * Properties *)

Local Open Scope list_scope.

(** ** Programs and their runs *)

Lemma exec_bind {R S : Type} (p : prog R) (f : R -> prog S) t r :
  exec (bind p f) t r <->
  exists t1 x t2, t = t1 ++ t2 /\ exec p t1 x /\ exec (f x) t2 r.
Proof.
  revert t. induction p as [r0 | A c k IH]; intros t; cbn.
  - split.
    + intros H. exists [], r0, t. auto.
    + intros (t1 & x & t2 & -> & (-> & ->) & H). exact H.
  - split.
    + intros (a & t' & -> & H). apply IH in H as (t1 & x & t2 & -> & H1 & H2).
      exists (ev c a :: t1), x, t2. split; [reflexivity|]. split; [|exact H2].
      exists a, t1. auto.
    + intros (t1 & x & t2 & -> & (a & t' & -> & H1) & H2).
      exists a, (t' ++ t2). split; [reflexivity|]. apply IH. eauto 10.
Qed.

(** The run against an oracle is one of the executions. *)
Lemma run_exec {R : Type} (o : oracle) (p : prog R) n :
  exec p (run o n p).1 (run o n p).2.
Proof.
  revert n. induction p as [r0 | A c k IH]; intros n; cbn.
  - auto.
  - specialize (IH (o A n c) (S n)).
    destruct (run o (S n) (k (o A n c))) as [t r]. cbn in *.
    eauto.
Qed.

(** A run in the model of the environment is an execution. *)
Lemma runs_exec {R : Type} (p : prog R) w t r w' :
  runs p w t r w' -> exec p t.*2 r.
Proof.
  revert w t. induction p as [r0 | A c k IH]; intros w t; cbn.
  - intros (-> & -> & _). auto.
  - intros (a & w1 & w2 & t' & _ & _ & -> & H).
    exists a, t'.*2. split; [reflexivity|]. eapply IH, H.
Qed.

Lemma runs_bind {R S : Type} (p : prog R) (f : R -> prog S) w t r w' :
  runs (bind p f) w t r w' <->
  exists t1 x wm t2,
    t = t1 ++ t2 /\ runs p w t1 x wm /\ runs (f x) wm t2 r w'.
Proof.
  revert w t. induction p as [r0 | A c k IH]; intros w t; cbn.
  - split.
    + intros H. exists [], r0, w, t. auto.
    + intros (t1 & x & wm & t2 & -> & (-> & -> & ->) & H). exact H.
  - split.
    + intros (a & w1 & w2 & t' & Hc & Hs & -> & H).
      apply IH in H as (t1 & x & wm & t2 & -> & H1 & H2).
      exists ((w1, ev c a) :: t1), x, wm, t2.
      split; [reflexivity|]. split; [|exact H2].
      exists a, w1, w2, t1. auto.
    + intros (t1 & x & wm & t2 & -> & (a & w1 & w2 & t' & Hc & Hs & -> & H1)
              & H2).
      exists a, w1, w2, (t' ++ t2).
      do 3 (split; [done|]). apply IH. eauto 10.
Qed.

(** Unfolds an execution hypothesis along the tree, one case per answer the
    program tells apart. *)
Ltac exec_explore H :=
  repeat first
    [ progress (cbn [exec bind perform ev] in H)
    | match type of H with
      | ex _ => let a := fresh "a" in destruct H as (a & H)
      | _ = _ /\ _ => let E := fresh "E" in destruct H as (E & H); try subst
      | exec ?p _ _ =>
          match p with
          | context [match ?x with _ => _ end] =>
              tryif is_var x then destruct x else destruct x eqn:?
          end
      end ];
  try subst.

(** Solves [l = t1 ++ e :: t2] for an explicit [l]: one case for each
    position of [l] that can hold [e]. *)
Ltac split_at H :=
  match type of H with
  | _ = ?t1 ++ _ :: _ =>
      destruct t1 as [|? t1]; cbn [app] in H;
      [ first [discriminate H | injection H as H; intros; subst]
      | first [discriminate H
              | let H' := fresh H in
                injection H as H' H; subst; split_at H] ]
  end.

(** Builds an execution with an explicit trace. *)
Ltac exec_build :=
  cbn [exec bind perform ev];
  repeat (eexists; eexists; split; [reflexivity | cbn [exec bind perform ev]]);
  split; reflexivity.

(** Membership in an explicit list. *)
Ltac in_list := cbn [In]; solve [repeat first [left; reflexivity | right]].

(** ** The streaming engine: what every execution does *)

Import journald.

Ltac unfold_stream H :=
  unfold StreamFromRemote, resetCursorFile, stream, logErr,
    logSessionCloseErr in H.

(** C4: when the select of [stream] receives from [ctx.Done], the next call
    is [session.Signal(SIGTERM)]; if the signal was sent the engine then
    blocks in the receive from [errCh], that is until [session.Wait] has
    returned; if sending the signal failed it logs, closes the session and
    only then receives from [errCh].  Whenever the remote command was
    started, the engine has seen [session.Wait] return and has called
    [session.Close] before it returns. *)
Theorem stream_cancel_interrupts_then_waits cl cursor path t r :
  exec (stream cl cursor path) t r ->
  (forall t1 s t2, t = t1 ++ ESelect s None :: t2 ->
     exists signalErr t3,
       t2 = ESignal s SIGTERM signalErr :: t3 /\
       match signalErr with
       | None => exists waitErr t4, t3 = ERecvWait s waitErr :: t4
       | Some e =>
           exists closeErr t4,
             t3 = ELogError e "failed to send signal to SSH session"
                    :: ESessClose s closeErr :: t4 /\
             exists waitErr, In (ERecvWait s waitErr) t4
       end) /\
  (forall t1 s cmd t2, t = t1 ++ EStart s cmd None :: t2 ->
     (exists waitErr,
        In (ESelect s (Some waitErr)) t2 \/ In (ERecvWait s waitErr) t2) /\
     (exists closeErr, In (ESessClose s closeErr) t2)).
Proof.
  intros H. unfold_stream H.
  exec_explore H.
  all: (split; [intros t1 s0 t2 E | intros t1 s0 cmd t2 E]).
  all: split_at E.
  all: first
    [ solve [ eexists _, _; split; [reflexivity|]; cbn;
              first [ eexists _, _; reflexivity
                    | eexists _, _; split; [reflexivity|]; eexists; in_list ] ]
    | solve [ split; [ eexists; first [left; in_list | right; in_list]
                     | eexists; in_list ] ] ].
Qed.

Lemma stream_cancel_interrupts_then_waits_witness :
  let p := stream 7 "$HOME/mm.cursor" "/var/log/mm/default-m1.log" in
  let t := (run (scripted cancelled_answers) 0 p).1 in
  In (ESelect 0 None) t /\
  (forall t1 s cmd t2, t = t1 ++ EStart s cmd None :: t2 ->
     (exists waitErr,
        In (ESelect s (Some waitErr)) t2 \/ In (ERecvWait s waitErr) t2) /\
     (exists closeErr, In (ESessClose s closeErr) t2)).
Proof.
  intros p t. split.
  - vm_compute. tauto.
  - exact (proj2 (stream_cancel_interrupts_then_waits 7 _ _ t _
                    (run_exec (scripted cancelled_answers) p 0))).
Defined.

(** [StreamFromRemote] is the existence check, the reset when the check
    says not-exist, and [stream]. *)
Lemma StreamFromRemote_exec cl cursor path t r :
  exec (StreamFromRemote cl cursor path) t r <->
  exists a t', t = EStat path a :: t' /\
    if IsNotExist a then
      exists t1 reset t2,
        t' = reset_log cursor :: t1 ++ t2 /\
        exec (resetCursorFile cl cursor) t1 reset /\
        match reset with
        | Some e =>
            t2 = [] /\
            r = Some (Errorf "failed to reset journald cursor file: %w"
                             [ArgW e])
        | None =>
            exists streamErr,
              exec (stream cl cursor path) t2 streamErr /\
              r = wrap_stream streamErr
        end
    else
      exists streamErr,
        exec (stream cl cursor path) t' streamErr /\ r = wrap_stream streamErr.
Proof.
  unfold StreamFromRemote. cbn [exec bind perform ev].
  split.
  - intros (a & t' & -> & H). exists a, t'. split; [reflexivity|].
    apply exec_bind in H as (t1 & reset & t2 & -> & H1 & H2).
    destruct (IsNotExist a).
    + cbn [exec bind perform ev] in H1. destruct H1 as (? & t1a & -> & H1).
      exists t1a, reset, t2. split; [reflexivity|]. split; [exact H1|].
      destruct reset as [e|].
      * destruct H2 as (-> & ->). auto.
      * apply exec_bind in H2 as (t2a & streamErr & t2b & -> & H2 & H3).
        exists streamErr. destruct streamErr; destruct H3 as (-> & ->);
          rewrite app_nil_r; auto.
    + destruct H1 as (-> & ->). cbn [app].
      apply exec_bind in H2 as (t2a & streamErr & t2b & -> & H2 & H3).
      exists streamErr. destruct streamErr; destruct H3 as (-> & ->);
        rewrite app_nil_r; auto.
  - intros (a & t' & -> & H). exists a, t'. split; [reflexivity|].
    apply exec_bind. destruct (IsNotExist a).
    + destruct H as (t1 & reset & t2 & -> & H1 & H2).
      exists (reset_log cursor :: t1), reset, t2. split; [reflexivity|]. split.
      * cbn [exec bind perform ev]. exists tt, t1. auto.
      * destruct reset as [e|].
        -- destruct H2 as (-> & ->). split; reflexivity.
        -- destruct H2 as (streamErr & H2 & ->). apply exec_bind.
           exists t2, streamErr, []. rewrite app_nil_r.
           split; [reflexivity|]. split; [exact H2|].
           destruct streamErr; split; reflexivity.
    + destruct H as (streamErr & H & ->).
      exists [], None, t'. split; [reflexivity|]. split; [split; reflexivity|].
      apply exec_bind. exists t', streamErr, []. rewrite app_nil_r.
      split; [reflexivity|]. split; [exact H|].
      destruct streamErr; split; reflexivity.
Qed.

(** [resetCursorFile] neither starts, signals nor waits for a command,
    opens no file, and reads the captured standard error only when it
    fails. *)
Lemma resetCursorFile_events cl cursor t reset :
  exec (resetCursorFile cl cursor) t reset ->
  Forall (fun e => reset_event e = true) t /\
  (reset = None -> forall s out, ~ In (EBufferString s out) t).
Proof.
  intros H. unfold_stream H. exec_explore H.
  all: split; [repeat constructor | try discriminate].
  all: intros _ s0 out; cbn [In]; intuition discriminate.
Qed.

(** [stream] does not check the file and runs no command to its end. *)
Lemma stream_events cl cursor path t r :
  exec (stream cl cursor path) t r -> Forall (fun e => stream_event e = true) t.
Proof.
  intros H. unfold_stream H. exec_explore H.
  all: repeat constructor.
Qed.

(** The remote command failed and the context is not cancelled. *)
Lemma stream_wait_failure cl cursor path t r s e :
  exec (stream cl cursor path) t r ->
  In (ESelect s (Some (Some e))) t -> In (ECtxErr None) t ->
  r = Some (Errorf "unexpected error running journalctl on remote host: %w"
                   [ArgW e]) /\
  forall s' out, ~ In (EBufferString s' out) t.
Proof.
  intros H Hsel Hctx. unfold_stream H. exec_explore H.
  all: cbn [In] in Hsel, Hctx.
  all: repeat match goal with
              | H : _ \/ _ |- _ => destruct H as [H|H]; try discriminate H
              | H : False |- _ => destruct H
              end.
  all: simplify_eq.
  all: split; [reflexivity|].
  all: intros s' out; cbn [In]; intuition discriminate.
Qed.

(** C3: when the remote command fails while the context is not cancelled,
    [StreamFromRemote] returns an error that wraps the error of
    [session.Wait] only: the buffer that captured the standard error of the
    command is never read, and the error quotes nothing of it. *)
Theorem wait_failure_error_omits_stderr cl cursor path t r s e :
  exec (StreamFromRemote cl cursor path) t r ->
  In (ESelect s (Some (Some e))) t -> In (ECtxErr None) t ->
  r = Some (Errorf "failed to stream journal from remote: %w"
              [ArgW (Errorf
                 "unexpected error running journalctl on remote host: %w"
                 [ArgW e])]) /\
  (forall s' out, ~ In (EBufferString s' out) t) /\
  (forall err, r = Some err -> quoted err = quoted e).
Proof.
  intros H Hsel Hctx.
  apply StreamFromRemote_exec in H as (a & t' & -> & H).
  destruct Hsel as [Hsel|Hsel]; [discriminate|].
  destruct Hctx as [Hctx|Hctx]; [discriminate|].
  assert (Hstream : forall t2 streamErr,
            exec (stream cl cursor path) t2 streamErr ->
            In (ESelect s (Some (Some e))) t2 -> In (ECtxErr None) t2 ->
            r = wrap_stream streamErr ->
            r = Some (Errorf "failed to stream journal from remote: %w"
                        [ArgW (Errorf
                           "unexpected error running journalctl on remote host: %w"
                           [ArgW e])]) /\
            (forall s' out, ~ In (EBufferString s' out) t2)).
  { intros t2 streamErr H2 Hs Hc ->.
    destruct (stream_wait_failure _ _ _ _ _ _ _ H2 Hs Hc) as [-> Hb].
    split; [reflexivity | exact Hb]. }
  assert (r = Some (Errorf "failed to stream journal from remote: %w"
                      [ArgW (Errorf
                         "unexpected error running journalctl on remote host: %w"
                         [ArgW e])]) /\
          (forall s' out, ~ In (EBufferString s' out) (EStat path a :: t')))
    as [-> Hbuf].
  { destruct (IsNotExist a).
    - destruct H as (t1 & reset & t2 & -> & H1 & H2).
      apply resetCursorFile_events in H1 as [Hev Hnobuf].
      assert (Hnot : forall x, In x t1 -> reset_event x = true)
        by (apply List.Forall_forall; exact Hev).
      destruct Hsel as [Hsel|Hsel]; [discriminate|].
      destruct Hctx as [Hctx|Hctx]; [discriminate|].
      apply in_app_or in Hsel as [Hsel|Hsel];
        [apply Hnot in Hsel; discriminate|].
      apply in_app_or in Hctx as [Hctx|Hctx];
        [apply Hnot in Hctx; discriminate|].
      destruct reset as [e0|].
      + destruct H2 as (-> & _). destruct Hsel.
      + destruct H2 as (streamErr & H2 & Hr).
        destruct (Hstream _ _ H2 Hsel Hctx Hr) as [-> Hb].
        split; [reflexivity|].
        intros s' out [Hin|[Hin|Hin]]; try discriminate.
        apply in_app_or in Hin as [Hin|Hin].
        * exact (Hnobuf eq_refl _ _ Hin).
        * exact (Hb _ _ Hin).
    - destruct H as (streamErr & H2 & Hr).
      destruct (Hstream _ _ H2 Hsel Hctx Hr) as [-> Hb].
      split; [reflexivity|].
      intros s' out [Hin|Hin]; [discriminate | exact (Hb _ _ Hin)]. }
  split; [reflexivity|]. split; [exact Hbuf|].
  intros err [= <-]. cbn. rewrite !app_nil_r. reflexivity.
Qed.

Lemma wait_failure_error_omits_stderr_witness :
  let p := StreamFromRemote 7 "$HOME/mm.cursor" "/var/log/mm/default-m1.log" in
  let o := scripted failing_answers in
  (run o 0 p).2 =
    Some (Errorf "failed to stream journal from remote: %w"
            [ArgW (Errorf
               "unexpected error running journalctl on remote host: %w"
               [ArgW (ExitError 1)])]) /\
  (forall s' out, ~ In (EBufferString s' out) (run o 0 p).1) /\
  (forall err, (run o 0 p).2 = Some err -> quoted err = []).
Proof.
  intros p o.
  refine (wait_failure_error_omits_stderr 7 _ _ _ _ 1%nat (ExitError 1)
            (run_exec o p 0) _ _).
  - vm_compute. tauto.
  - vm_compute. tauto.
Defined.

(** C5: [stream] returns with the session it created still open when
    [os.OpenFile] fails and when [session.Start] fails: neither execution
    calls [session.Close] (the second one does close the file). *)
Theorem stream_early_return_keeps_session_open cl cursor path s f e closeErr out :
  let flag := Z.lor (Z.lor O_CREATE O_WRONLY) O_APPEND in
  let command := streamJournalAsRootCommand cursor in
  let t_open := [ENewSession cl (Ok s); EOpenFile path flag 420 (Fail e)] in
  let t_start :=
    [ENewSession cl (Ok s); EOpenFile path flag 420 (Ok f);
     ESetStdout s (ToFile f); ESetStderr s ToBuffer;
     ELogInfo 1 "running command on remote host" [("command", command)];
     EStart s command (Some e); EFileClose f closeErr] ++
    match closeErr with
    | Some ce => [ELogError ce "failed to close local journal file"]
    | None => []
    end ++ [EBufferString s out] in
  (exec (stream cl cursor path) t_open
     (Some (Errorf "failed to open local journal file: %w" [ArgW e])) /\
   forall r, ~ In (ESessClose s r) t_open) /\
  (exec (stream cl cursor path) t_start
     (Some (Errorf "failed to run command %q on remote host: %w: stderr=%q"
              [ArgQ command; ArgW e; ArgQ out])) /\
   forall r, ~ In (ESessClose s r) t_start).
Proof.
  intros flag command t_open t_start.
  subst flag command t_open t_start. split; split.
  - unfold stream. exec_build.
  - intros r. cbn [In]. intuition discriminate.
  - unfold stream, logErr. destruct closeErr; exec_build.
  - intros r. destruct closeErr; cbn [In app]; intuition discriminate.
Qed.

(** X2: past a successful [session.Start], on the other hand, every
    execution of [stream] closes the session and the file, and what it
    returns is nil or the error of [session.Wait]: never an error of a
    close. *)
Lemma stream_closes_after_start cl cursor path t r t1 s f cmd t2 :
  exec (stream cl cursor path) t r ->
  t = t1 ++ EStart s cmd None :: t2 ->
  In (ESetStdout s (ToFile f)) t1 ->
  (exists closeErr, In (ESessClose s closeErr) t2) /\
  (exists closeErr, In (EFileClose f closeErr) t2) /\
  (r = None \/
   exists waitErr,
     (In (ESelect s (Some (Some waitErr))) t2 \/
      In (ERecvWait s (Some waitErr)) t2) /\
     r = Some (Errorf
                 "unexpected error running journalctl on remote host: %w"
                 [ArgW waitErr])).
Proof.
  intros H E Hout. unfold_stream H. exec_explore H.
  all: split_at E.
  all: cbn [In] in Hout.
  all: repeat match goal with
              | H : _ \/ _ |- _ => destruct H as [H|H]; try discriminate H
              | H : False |- _ => destruct H
              end.
  all: simplify_eq.
  all: split; [eexists; in_list|].
  all: split; [eexists; in_list|].
  all: first [left; reflexivity
             | right; eexists; split; [|reflexivity];
               first [left; in_list | right; in_list]].
Qed.

(** C10: when [os.Stat] fails with an error that is not a not-exist error,
    [StreamFromRemote] goes on exactly as when the file exists: the rest of
    the execution is an execution of [stream], no command is run to reset
    the cursor, and what is returned depends on [stream] only. *)
Theorem stat_failure_is_ignored cl cursor path a t r :
  nonnil a = true -> IsNotExist a = false ->
  (exec (StreamFromRemote cl cursor path) (EStat path a :: t) r <->
   exists streamErr,
     exec (stream cl cursor path) t streamErr /\ r = wrap_stream streamErr) /\
  (exec (StreamFromRemote cl cursor path) (EStat path a :: t) r <->
   exec (StreamFromRemote cl cursor path) (EStat path None :: t) r) /\
  (exec (StreamFromRemote cl cursor path) (EStat path a :: t) r ->
   forall s cmd res, ~ In (ERun s cmd res) t).
Proof.
  intros _ Ha.
  assert (Hiff : forall a', IsNotExist a' = false ->
            exec (StreamFromRemote cl cursor path) (EStat path a' :: t) r <->
            exists streamErr,
              exec (stream cl cursor path) t streamErr /\
              r = wrap_stream streamErr).
  { intros a' Ha'. rewrite StreamFromRemote_exec. split.
    - intros (a0 & t' & [= <- <-] & H). rewrite Ha' in H. exact H.
    - intros H. exists a', t. split; [reflexivity|]. rewrite Ha'. exact H. }
  split; [exact (Hiff a Ha)|]. split.
  - rewrite (Hiff a Ha), (Hiff None eq_refl). reflexivity.
  - intros H. apply (Hiff a Ha) in H as (streamErr & H & _).
    apply stream_events in H.
    intros s cmd res Hin.
    apply (proj1 (List.Forall_forall _ _) H) in Hin. discriminate.
Qed.

Lemma stat_failure_is_ignored_witness :
  let path := "/var/log/mm/default-m1.log" in
  let p := StreamFromRemote 7 "$HOME/mm.cursor" path in
  let a := Some (PathError "stat" path EACCES) in
  exists t r,
    (run (scripted unwritable_answers) 0 p) = (EStat path a :: t, r) /\
    forall s cmd res, ~ In (ERun s cmd res) t.
Proof.
  intros path p a. eexists _, _. split; [vm_compute; reflexivity|].
  refine (proj2 (proj2 (stat_failure_is_ignored 7 "$HOME/mm.cursor" path a _ _
                          eq_refl eq_refl)) _).
  exact (run_exec (scripted unwritable_answers) p 0).
Defined.

(** ** The environment: the remote shell *)

Lemma append_cons c (a b : string) :
  (String c a ++ b = String c (a ++ b))%string.
Proof. reflexivity. Qed.

Lemma string_app_assoc (a b c : string) :
  ((a ++ b) ++ c = a ++ (b ++ c))%string.
Proof.
  induction a as [|x a IH]; [reflexivity|].
  rewrite !append_cons. by rewrite IH.
Qed.

Lemma string_app_empty_r (a : string) : (a ++ "" = a)%string.
Proof.
  induction a as [|x a IH]; [reflexivity|]. rewrite append_cons. by rewrite IH.
Qed.

Lemma fields_no_space cur p :
  no_space p = true ->
  fields cur p = if String.eqb (cur ++ p) "" then [] else [(cur ++ p)%string].
Proof.
  revert cur. induction p as [|c p IH]; intros cur Hp; cbn [fields no_space] in *.
  - by rewrite string_app_empty_r.
  - apply andb_prop in Hp as [Hc Hp]. apply negb_true_iff in Hc.
    rewrite Hc, (IH _ Hp), string_app_assoc. reflexivity.
Qed.

Lemma fields_word cur w rest :
  no_space w = true -> (cur ++ w)%string <> "" ->
  fields cur (w ++ String " " rest) = (cur ++ w)%string :: fields "" rest.
Proof.
  revert cur. induction w as [|c w IH]; intros cur Hw Hne.
  - change ("" ++ String " " rest)%string with (String " " rest).
    rewrite string_app_empty_r in *. cbn [fields]. 
    change (is_space " ") with true. cbv iota.
    destruct (String.eqb_spec cur ""); [done|reflexivity].
  - cbn [no_space] in Hw. apply andb_prop in Hw as [Hc Hw].
    apply negb_true_iff in Hc.
    rewrite append_cons. cbn [fields]. rewrite Hc.
    rewrite IH; [|done|].
    + by rewrite string_app_assoc.
    + by rewrite string_app_assoc.
Qed.

(** The forced delete exits with status 0 and leaves no cursor file,
    whether the file was there or not. *)
Lemma remote_exec_rm_force p fs :
  single_word p ->
  remote_exec (journald.removeCursorFileCommand p) fs = (0%Z, fs ∖ {[p]}).
Proof.
  intros [Hne Hp]. unfold remote_exec, journald.removeCursorFileCommand.
  change ("rm --force " ++ p)%string
    with ("rm" ++ String " " ("--force" ++ String " " p))%string.
  rewrite (fields_word "" "rm"), (fields_word "" "--force") by done.
  rewrite (fields_no_space _ _ Hp).
  change ("" ++ p)%string with p.
  destruct (String.eqb_spec p ""); [done|].
  change ("" ++ "rm")%string with "rm".
  change ("" ++ "--force")%string with "--force".
  cbv beta iota. unfold rm. cbn [orb]. f_equal.
  cbn [list_to_set foldr]. by rewrite union_empty_r_L.
Qed.

(** Without [--force] the delete of a missing file fails. *)
Example remote_exec_rm_missing :
  (remote_exec "rm /var/tmp/mm.cursor" ∅).1 = 1%Z.
Proof. reflexivity. Qed.

(** ** The environment: frames *)

Lemma cancel_may_eq w w1 :
  cancel_may w w1 ->
  exists e, w1 = set_ctx_err e w /\ (ctx_err w <> None -> e = ctx_err w).
Proof.
  intros [-> | (Hn & e & ->)].
  - exists (ctx_err w). split; [by destruct w | auto].
  - exists (Some e). split; [reflexivity | congruence].
Qed.

(** Unfolds a run hypothesis along the tree and names the steps. *)
Ltac runs_explore H :=
  repeat first
    [ progress (cbn [runs bind perform ev] in H)
    | match type of H with
      | ex _ => destruct H as (? & H)
      | cancel_may _ _ /\ _ =>
          let C := fresh "C" in
          destruct H as (C & H);
          apply cancel_may_eq in C as (? & -> & C)
      | op_step _ _ _ _ /\ _ =>
          let S := fresh "S" in destruct H as (S & H)
      | _ = _ /\ _ => let E := fresh "E" in destruct H as (E & H); try subst
      | runs ?p _ _ _ _ =>
          match p with
          | context [match ?x with _ => _ end] =>
              tryif is_var x then destruct x else destruct x eqn:?
          end
      end ];
  try subst.

Ltac world_simpl :=
  cbv [set_files set_fds set_sinks set_remote set_ctx_err] in *;
  cbn [files fds sinks remote ctx_err] in *.

(** Turns the steps into equations between worlds and eliminates them:
    every world becomes the record of its fields. *)
Ltac steps_simpl :=
  world_simpl;
  repeat match goal with
         | S : op_step _ _ _ _ |- _ => cbn [op_step] in S
         | S : _ /\ _ |- _ => destruct S
         | S : ex _ |- _ => destruct S
         | S : wait_effect _ _ _ |- _ => destruct S as (? & ? & ->); world_simpl
         | S : ?w = _ |- _ => is_var w; subst w; world_simpl
         end.

Import journald.


Lemma stream_start_remote cl cursor path w t r w' t1 w1 s cmd res t2 :
  runs (stream cl cursor path) w t r w' ->
  t = t1 ++ (w1, EStart s cmd res) :: t2 ->
  remote w1 = remote w.
Proof.
  intros H E. unfold_stream H. runs_explore H.
  all: split_at E.
  all: steps_simpl.
  all: reflexivity.
Qed.

Lemma cancel_may_files w w1 : cancel_may w w1 -> files w1 = files w.
Proof. by intros [-> | (_ & e & ->)]. Qed.

(** The runs of [StreamFromRemote], cut at the calls of its two helpers. *)
Lemma StreamFromRemote_runs cl cursor path w t r w' :
  runs (StreamFromRemote cl cursor path) w t r w' ->
  exists a w0 t',
    files w0 = files w /\ stat_answer (files w0) path a /\
    t = (w0, EStat path a) :: t' /\
    if IsNotExist a then
      exists wl t1 reset wm t2,
        files wl = files w /\
        t' = (wl, reset_log cursor) :: t1 ++ t2 /\
        runs (resetCursorFile cl cursor) wl t1 reset wm /\
        match reset with
        | Some e =>
            t2 = [] /\ w' = wm /\
            r = Some (Errorf "failed to reset journald cursor file: %w"
                             [ArgW e])
        | None =>
            exists streamErr,
              runs (stream cl cursor path) wm t2 streamErr w' /\
              r = wrap_stream streamErr
        end
    else
      exists streamErr,
        files w0 = files w /\
        runs (stream cl cursor path) w0 t' streamErr w' /\
        r = wrap_stream streamErr.
Proof.
  unfold StreamFromRemote. cbn [runs bind perform ev].
  intros (a & w0 & w1 & t' & C & S & -> & H).
  cbn [op_step] in S. destruct S as [-> S].
  pose proof (cancel_may_files _ _ C) as Hf.
  exists a, w0, t'. do 3 (split; [done|]).
  apply runs_bind in H as (t1 & reset & wm & t2 & -> & H1 & H2).
  destruct (IsNotExist a).
  - cbn [runs bind perform ev] in H1.
    destruct H1 as (? & wl & wl' & t1a & C1 & S1 & -> & H1).
    cbn [op_step] in S1. subst wl'.
    exists wl, t1a, reset, wm, t2.
    split; [by rewrite (cancel_may_files _ _ C1)|].
    split; [reflexivity|]. split; [exact H1|].
    destruct reset as [e|].
    + destruct H2 as (-> & -> & ->). auto.
    + apply runs_bind in H2 as (t2a & streamErr & wm' & t2b & -> & H2 & H3).
      exists streamErr.
      destruct streamErr; destruct H3 as (-> & -> & ->);
        rewrite app_nil_r; auto.
  - destruct H1 as (-> & -> & ->). cbn [app].
    apply runs_bind in H2 as (t2a & streamErr & wm' & t2b & -> & H2 & H3).
    exists streamErr.
    destruct streamErr; destruct H3 as (-> & -> & ->);
      rewrite app_nil_r; auto.
Qed.



(** ** The local journal file *)

Lemma journal_flag_bits :
  has_flag journal_flag O_APPEND = true /\
  has_flag journal_flag O_CREATE = true /\
  has_flag journal_flag O_TRUNC = false /\
  has_flag journal_flag O_EXCL = false /\
  writable journal_flag = true.
Proof. repeat split. Qed.

Lemma open_files_journal fs p fs' :
  open_files fs p journal_flag = Some fs' ->
  exists c, fs' !! p = Some c /\
    (forall c0, fs !! p = Some c0 -> c = c0) /\
    (forall q, q <> p -> fs' !! q = fs !! q).
Proof.
  unfold open_files.
  destruct journal_flag_bits as (_ & -> & -> & -> & _). cbn [andb].
  destruct (fs !! p) as [c0|] eqn:E; intros [= <-].
  - exists c0. split; [done|]. split; [congruence|done].
  - exists []. split; [apply lookup_insert_eq|]. split; [done|].
    intros q Hq. by apply lookup_insert_ne.
Qed.

(** Output delivered through a descriptor opened in append mode goes to
    the end of the file. *)
Lemma deliver_append s f p flag off data w c :
  sinks w !! s = Some (ToFile f) ->
  fds w !! f = Some {| h_path := p; h_flag := flag; h_off := off |} ->
  has_flag flag O_APPEND = true -> writable flag = true ->
  files w !! p = Some c ->
  deliver s data w =
    set_files (<[p := c ++ data]> (files w))
      (set_fds (<[f := {| h_path := p; h_flag := flag;
                          h_off := off + length data |}]> (fds w)) w).
Proof.
  intros Hs Hf Ha Hw Hc. unfold deliver. rewrite Hs, Hf. cbn [h_path h_flag].
  rewrite Hc, Hw. unfold write_through. cbn [h_flag]. rewrite Ha.
  reflexivity.
Qed.

(** [stream] opens one file: the journal, with the flags above. *)
Lemma stream_open_flag cl cursor path t r p flag perm res :
  exec (stream cl cursor path) t r ->
  In (EOpenFile p flag perm res) t ->
  p = path /\ flag = journal_flag.
Proof.
  intros H Hin. unfold_stream H. exec_explore H.
  all: cbn [In] in Hin.
  all: repeat match goal with
              | H : _ \/ _ |- _ => destruct H as [H|H]; try discriminate H
              | H : False |- _ => destruct H
              end.
  all: by simplify_eq.
Qed.

(** The content of the journal after a run extends the content before. *)
Lemma stream_extends_journal cl cursor path w t r w' content :
  runs (stream cl cursor path) w t r w' ->
  files w !! path = Some content ->
  exists content', files w' !! path = Some content' /\
                   content `prefix_of` content'.
Proof.
  intros H Hcontent. unfold_stream H. runs_explore H.
  all: steps_simpl.
  all: try match goal with
           | H : open_files _ _ _ = Some _ |- _ =>
               apply open_files_journal in H as (c & Hc & Hsame & Hother);
               pose proof (Hsame _ Hcontent) as ->
           end.
  all: repeat match goal with
              | |- context [deliver ?s ?d ?W] =>
                  rewrite (deliver_append s _ path journal_flag 0 d W content)
                    in * by
                    first [ apply lookup_insert_eq | reflexivity | exact Hc ]
              end.
  all: world_simpl.
  all: try (rewrite lookup_insert_eq; eexists; split; [reflexivity|];
            by apply prefix_app_r).
  all: eexists; split; [eassumption|reflexivity].
Qed.

(** A journal that was absent exists once the open has succeeded. *)
Lemma stream_creates_journal cl cursor path w t r w' w0 flag perm f :
  runs (stream cl cursor path) w t r w' ->
  In (w0, EOpenFile path flag perm (Ok f)) t ->
  is_Some (files w' !! path).
Proof.
  intros H Hin. unfold_stream H. runs_explore H.
  all: cbn [In] in Hin.
  all: repeat match goal with
              | H : _ \/ _ |- _ => destruct H as [H|H]; try discriminate H
              | H : False |- _ => destruct H
              end.
  all: simplify_eq.
  all: steps_simpl.
  all: match goal with
       | H : open_files _ _ _ = Some _ |- _ =>
           apply open_files_journal in H as (c & Hc & Hsame & Hother)
       end.
  all: repeat match goal with
              | |- context [deliver ?s ?d ?W] =>
                  rewrite (deliver_append s _ path journal_flag 0 d W c)
                    in * by
                    first [ apply lookup_insert_eq | reflexivity | exact Hc ]
              end.
  all: world_simpl.
  all: try (rewrite lookup_insert_eq).
  all: eauto.
Qed.

(** C6: [stream] opens the journal with [O_CREATE|O_WRONLY|O_APPEND] and
    without [O_TRUNC]; whatever the file held before the run is a prefix of
    what it holds after; and a file that was absent exists once the open has
    succeeded. *)
Theorem stream_appends_to_journal cl cursor path w t r w' :
  runs (stream cl cursor path) w t r w' ->
  (forall w0 p flag perm res, In (w0, EOpenFile p flag perm res) t ->
     p = path /\
     has_flag flag O_APPEND = true /\ has_flag flag O_CREATE = true /\
     has_flag flag O_TRUNC = false /\ writable flag = true) /\
  (forall content, files w !! path = Some content ->
     exists content', files w' !! path = Some content' /\
                      content `prefix_of` content') /\
  (forall w0 flag perm f, In (w0, EOpenFile path flag perm (Ok f)) t ->
     is_Some (files w' !! path)).
Proof.
  intros H. split; [|split].
  - intros w0 p flag perm res Hin.
    apply (in_map snd) in Hin. cbn [snd] in Hin.
    destruct (stream_open_flag _ _ _ _ _ _ _ _ _ (runs_exec _ _ _ _ _ H) Hin)
      as [-> ->].
    split; [reflexivity|]. repeat split.
  - intros content Hc. exact (stream_extends_journal _ _ _ _ _ _ _ _ H Hc).
  - intros w0 flag perm f Hin.
    exact (stream_creates_journal _ _ _ _ _ _ _ _ _ _ _ H Hin).
Qed.

(** ** Concrete runs *)

(** One step of a run: the answer [a], no cancellation before it. *)
Ltac run_with a :=
  cbn [runs bind perform ev];
  exists a; eexists _, _, _;
  split; [left; reflexivity|];
  split; [cbn [op_step]; world_simpl|
          split; [reflexivity|]].




(** A later attempt, cancelled while the command runs: the journal exists,
    the remote command delivers the second line and is interrupted. *)
Lemma resumed_run :
  exists t w',
    runs (stream 7 demo_cursor demo_path) resumed_world t None w'.
Proof.
  eexists _, _.
  unfold stream, logErr, logSessionCloseErr.
  run_with (@Ok session 1%nat). { split; reflexivity. }
  run_with (@Ok fd 3%nat).
  { split; [reflexivity|]. eexists. split; reflexivity. }
  run_with tt. { reflexivity. }
  run_with tt. { reflexivity. }
  run_with tt. { reflexivity. }
  run_with (@None error). { reflexivity. }
  (* the context is cancelled while the select is blocked *)
  cbn [runs bind perform ev].
  exists (@None (option error)). eexists _, _, _.
  split; [right; split; [reflexivity|]; exists Canceled; reflexivity|].
  split; [cbn [op_step]; world_simpl; split; [discriminate|reflexivity]|].
  split; [reflexivity|].
  run_with (@None error). { reflexivity. }
  run_with (Some (ExitError 143)).
  { exists (list_byte_of_string "B
"), ∅. reflexivity. }
  run_with (Some EOF). { reflexivity. }
  cbn [is_EOF bind].
  run_with (@None error). { reflexivity. }
  run_with (Some Canceled). { split; reflexivity. }
  cbn [runs bind]. repeat split; reflexivity.
Defined.


Lemma stream_appends_to_journal_witness :
  exists t w',
    runs (stream 7 demo_cursor demo_path) resumed_world t None w' /\
    exists content',
      files w' !! demo_path = Some content' /\
      list_byte_of_string "A
" `prefix_of` content'.
Proof.
  destruct resumed_run as (t & w' & H).
  exists t, w'. split; [exact H|].
  apply (proj1 (proj2 (stream_appends_to_journal 7 demo_cursor demo_path
                         resumed_world t None w' H))).
  reflexivity.
Defined.



(** ** Cancellation *)

Lemma ctx_err_deliver s data w : ctx_err (deliver s data w) = ctx_err w.
Proof.
  unfold deliver. destruct (sinks w !! s) as [[]|]; try reflexivity.
  destruct (fds w !! f); [|reflexivity].
  destruct (files w !! h_path h); [|reflexivity].
  by destruct (writable (h_flag h)).
Qed.

(** Once the select of [stream] has received from [ctx.Done], the run
    returns nil, whatever [session.Wait] returned. *)
Lemma cancelled_stream_returns_nil cl cursor path w t r w' w0 s :
  runs (stream cl cursor path) w t r w' ->
  In (w0, ESelect s None) t ->
  r = None.
Proof.
  intros H Hin. unfold_stream H. runs_explore H.
  all: try reflexivity.
  all: cbn [In] in Hin.
  all: repeat match goal with
              | H : _ \/ _ |- _ => destruct H as [H|H]; try discriminate H
              | H : False |- _ => destruct H
              end.
  all: steps_simpl.
  all: rewrite ?ctx_err_deliver in *; world_simpl.
  all: repeat match goal with
              | C : ?x <> None -> ?y = ?x, H : ?x <> None |- _ =>
                  specialize (C H); subst y
              end.
  all: congruence.
Qed.

(** X17: once the select of [stream] has received from [ctx.Done],
    [StreamFromRemote] returns nil, whatever [session.Wait] and the closes
    returned: a stop by cancellation is not an error. *)
Lemma cancelled_stop_returns_nil cl cursor path w t r w' w0 s :
  runs (StreamFromRemote cl cursor path) w t r w' ->
  In (w0, ESelect s None) t ->
  r = None.
Proof.
  intros H Hin.
  apply StreamFromRemote_runs in H as (a & wa & t' & Hf & Ha & -> & H).
  destruct Hin as [Hin|Hin]; [discriminate|].
  destruct (IsNotExist a).
  - destruct H as (wl & t1r & reset & wm & t2s & Hfl & -> & Hreset & H).
    destruct Hin as [Hin|Hin]; [discriminate|].
    apply in_app_or in Hin as [Hin|Hin].
    + apply runs_exec, resetCursorFile_events in Hreset as [Hev _].
      apply (in_map snd) in Hin.
      apply (proj1 (List.Forall_forall _ _) Hev) in Hin. discriminate.
    + destruct reset as [e|].
      * destruct H as (-> & _). destruct Hin.
      * destruct H as (streamErr & H & ->).
        by rewrite (cancelled_stream_returns_nil _ _ _ _ _ _ _ _ _ H Hin).
  - destruct H as (streamErr & _ & H & ->).
    by rewrite (cancelled_stream_returns_nil _ _ _ _ _ _ _ _ _ H Hin).
Qed.

(** ** DialContext *)

Import ssh.

Lemma dial_run_app s l1 l2 :
  dial_run s (l1 ++ l2) =
  match dial_run s l1 with
  | Some s1 => dial_run s1 l2
  | None => None
  end.
Proof.
  revert s. induction l1 as [|l l1 IH]; intros s; cbn [dial_run app].
  - reflexivity.
  - destruct (dial_step s l); [apply IH | reflexivity].
Qed.

Lemma dial_inv_init : dial_inv init.
Proof. reflexivity. Qed.

Lemma dial_inv_step s l s' :
  dial_inv s -> dial_step s l = Some s' -> dial_inv s'.
Proof.
  destruct s as [m g c k]. unfold dial_inv, dial_step. cbn [mpc gpc conn cause].
  intros Hi Hs.
  destruct l; destruct m as [| |[?|] [?|]]; destruct g as [| |[?|] [?|]|];
    destruct k; try discriminate Hs; try destruct Hi;
    injection Hs as <-; cbn [mpc gpc conn cause]; try reflexivity;
    try assumption.
Qed.

Lemma dial_inv_run ls : forall s s',
  dial_inv s -> dial_run s ls = Some s' -> dial_inv s'.
Proof.
  induction ls as [|l ls IH]; intros s s' Hi Hr; cbn [dial_run] in Hr.
  - by injection Hr as <-.
  - destruct (dial_step s l) as [s1|] eqn:E; [|discriminate].
    eapply IH; [|exact Hr]. eapply dial_inv_step; eauto.
Qed.











(** ** Reconcile *)

Import controller.

Lemma machineIP_of_none addrs :
  (forall addr, In addr addrs -> Type_ addr <> MachineInternalIP) ->
  machineIP_of addrs = "".
Proof.
  induction addrs as [|addr rest IH]; intros H; cbn [machineIP_of].
  - reflexivity.
  - destruct (String.eqb_spec (Type_ addr) MachineInternalIP) as [E|_].
    + destruct (H addr); [by left | exact E].
    + apply IH. intros a Ha. apply H. by right.
Qed.

(** C8: whatever non-nil error the Machine get returns, a not-found error
    included, [Reconcile] returns at once with that error wrapped; and the
    body of the not-found branch is dead: replacing it by any other program
    changes no execution of [Reconcile]. *)
Theorem not_found_branch_is_dead path_Join rc namespace name :
  (forall m e,
     exec (Reconcile path_Join rc namespace name)
       [ECtxCause None; EClientGet namespace name (m, Some e)]
       (Result_zero,
        Some (Errorf "failed to get machine %s: %w"
                [ArgS (namespace ++ "/" ++ name)%string; ArgW e])) /\
     forall t res,
       exec (Reconcile path_Join rc namespace name)
         (ECtxCause None :: EClientGet namespace name (m, Some e) :: t) res ->
       t = [] /\
       res = (Result_zero,
              Some (Errorf "failed to get machine %s: %w"
                      [ArgS (namespace ++ "/" ++ name)%string; ArgW e]))) /\
  (forall onNotFound t res,
     exec (ReconcileWith path_Join onNotFound rc namespace name) t res <->
     exec (Reconcile path_Join rc namespace name) t res).
Proof.
  split.
  - intros m e. split.
    + unfold Reconcile, ReconcileWith. exec_build.
    + intros t res H. unfold Reconcile, ReconcileWith in H.
      cbn [exec bind perform ev] in H.
      destruct H as (a & t1 & [= <- <-] & a0 & t2 & [= <- <-] & H).
      cbn [fst snd exec] in H. destruct H as [-> ->]. auto.
  - intros onNotFound t res. unfold Reconcile, ReconcileWith.
    cbn [exec bind perform ev].
    split; intros (a & t1 & -> & H); exists a, t1; (split; [reflexivity|]);
      destruct a as [c|]; try exact H;
      cbn [exec bind perform ev] in *;
      destruct H as ([m err] & t2 & -> & H); exists (m, err), t2;
      (split; [reflexivity|]); cbn [fst snd] in *;
      destruct err as [e|]; exact H.
Qed.

Lemma not_found_branch_is_dead_witness :
  let rc := {| SSHPrivateKey := []; SSHUser := "core"; SSHPort := 22;
               LocalJournalDirectory := "/var/log/mm";
               RemoteJournaldCursorFilePath := "$HOME/mm.cursor" |} in
  let join := fun d f => (d ++ "/" ++ f)%string in
  IsNotFound (Some (StatusError "NotFound")) = true /\
  forall t res,
    exec (Reconcile join rc "default" "m1")
      (ECtxCause None
         :: EClientGet "default" "m1"
              (no_machine, Some (StatusError "NotFound")) :: t) res ->
    t = [] /\
    res = (Result_zero,
           Some (Errorf "failed to get machine %s: %w"
                   [ArgS "default/m1"; ArgW (StatusError "NotFound")])).
Proof.
  intros rc join. split; [reflexivity|].
  exact (proj2 (proj1 (not_found_branch_is_dead join rc "default" "m1")
                  no_machine (StatusError "NotFound"))).
Defined.

(** C9: when the Machine that was fetched has no address of type
    InternalIP, [Reconcile] makes no further call (no SSH dial, no file,
    no remote command) and returns [ctrl.Result{}] with a nil error. *)
Theorem no_internal_ip_is_noop path_Join rc namespace name m t res :
  (forall addr, In addr (Addresses m) -> Type_ addr <> MachineInternalIP) ->
  exec (Reconcile path_Join rc namespace name)
    (ECtxCause None :: EClientGet namespace name (m, None) :: t) res ->
  t = [] /\ res = (Result_zero, None) /\
  Requeue res.1 = false /\ RequeueAfter res.1 = 0%Z.
Proof.
  intros Hm H. unfold Reconcile, ReconcileWith in H.
  cbn [exec bind perform ev] in H.
  destruct H as (a & t1 & [= <- <-] & a0 & t2 & [= <- <-] & H).
  cbn [fst snd IsNotFound] in H.
  rewrite (machineIP_of_none _ Hm) in H. cbn [String.eqb exec] in H.
  destruct H as [-> ->]. auto.
Qed.

Lemma no_internal_ip_is_noop_witness :
  let rc := {| SSHPrivateKey := []; SSHUser := "core"; SSHPort := 22;
               LocalJournalDirectory := "/var/log/mm";
               RemoteJournaldCursorFilePath := "$HOME/mm.cursor" |} in
  let join := fun d f => (d ++ "/" ++ f)%string in
  let m := {| Namespace := "default"; Name := "m1";
              Addresses := [ {| Type_ := "Hostname"; Address := "m1" |};
                             {| Type_ := "ExternalIP";
                                Address := "203.0.113.7" |} ] |} in
  let t := [ECtxCause None; EClientGet "default" "m1" (m, None)] in
  exec (Reconcile join rc "default" "m1") t (Result_zero, None) /\
  ([] = @nil event /\ (Result_zero, @None error) = (Result_zero, None) /\
   Requeue Result_zero = false /\ RequeueAfter Result_zero = 0%Z).
Proof.
  intros rc join m t.
  assert (H : exec (Reconcile join rc "default" "m1") t (Result_zero, None)).
  { unfold Reconcile, ReconcileWith. subst t. exec_build. }
  split; [exact H|].
  refine (no_internal_ip_is_noop join rc "default" "m1" m [] _ _ H).
  intros addr Hin. cbn [In Addresses m] in Hin.
  destruct Hin as [<-|[<-|[]]]; discriminate.
Defined.

(** * Further properties *)

(** The cases of a membership in an explicit list. *)
Ltac in_cases H :=
  cbn [In app] in H;
  repeat (destruct H as [H|H]; [try discriminate H|]);
  try (exfalso; exact H).

(** ** resetCursorFile *)

(** X1: [resetCursorFile] returns nil exactly when [session.Run] succeeded;
    then it has called [session.Close], whose error is logged unless it is
    [io.EOF] and is never returned.  When [session.Run] fails it returns
    without calling [session.Close]. *)
Theorem resetCursorFile_close_discipline cl cursor t reset :
  exec (resetCursorFile cl cursor) t reset ->
  (reset = None <-> exists s cmd, In (ERun s cmd None) t) /\
  (forall s cmd e, In (ERun s cmd (Some e)) t ->
     forall closeErr, ~ In (ESessClose s closeErr) t) /\
  (forall s cmd, In (ERun s cmd None) t ->
     exists closeErr, In (ESessClose s closeErr) t) /\
  (forall s e, In (ESessClose s (Some e)) t ->
     reset = None /\
     (In (ELogError e "failed to close session") t <-> is_EOF e = false)).
Proof.
  intros H. split; [|split; [|split]].
  - unfold_stream H. exec_explore H.
    all: split; [ first [discriminate | intros _; eexists _, _; in_list]
                | intros (s0 & cmd0 & Hin); in_cases Hin; reflexivity ].
  - intros s0 cmd0 e0 Hin closeErr Hc. unfold_stream H. exec_explore H.
    all: in_cases Hin; simplify_eq; in_cases Hc.
  - intros s0 cmd0 Hin. unfold_stream H. exec_explore H.
    all: in_cases Hin; simplify_eq; eexists; in_list.
  - intros s0 e0 Hin. unfold_stream H. exec_explore H.
    all: in_cases Hin; simplify_eq.
    all: split; [reflexivity|].
    all: split; [ intros Hl; in_cases Hl; simplify_eq; congruence
                | intros Hf; first [congruence | in_list] ].
Qed.

Lemma resetCursorFile_close_discipline_witness :
  let p := resetCursorFile 7 "$HOME/mm.cursor" in
  let o := scripted close_failing_answers in
  (run o 0 p).2 = None /\
  In (ELogError (ErrorString "ssh: channel closed") "failed to close session")
     (run o 0 p).1.
Proof.
  intros p o.
  pose proof (resetCursorFile_close_discipline 7 "$HOME/mm.cursor" _ _
                (run_exec o p 0)) as (_ & _ & _ & H).
  destruct (H 0%nat (ErrorString "ssh: channel closed")) as [Hr Hl].
  - vm_compute. tauto.
  - split; [exact Hr | apply Hl; reflexivity].
Defined.

(** ** The errors of StreamFromRemote *)

Lemma chain_self e : In e (chain e).
Proof. destruct e; left; reflexivity. Qed.

(** Picks the failed call of an explicit trace whose error the result
    wraps. *)
Ltac cause_found :=
  split; [in_list|]; split;
  [reflexivity | cbn [chain]; right; apply chain_self].

Ltac pick_cause cl :=
  match goal with
  | |- context [ArgW ?e] =>
      exists e;
      first [ solve [exists (ENewSession cl (Fail e)); cause_found]
            | match goal with
              | |- context [EOpenFile ?p ?f ?m (Fail e)] =>
                  exists (EOpenFile p f m (Fail e))
              | |- context [ERun ?s ?c (Some e)] =>
                  exists (ERun s c (Some e))
              | |- context [EStart ?s ?c (Some e)] =>
                  exists (EStart s c (Some e))
              | |- context [ESelect ?s (Some (Some e))] =>
                  exists (ESelect s (Some (Some e)))
              | |- context [ERecvWait ?s (Some e)] =>
                  exists (ERecvWait s (Some e))
              end; cause_found ]
  end.

Lemma resetCursorFile_error_cause cl cursor t err :
  exec (resetCursorFile cl cursor) t (Some err) ->
  exists e0 ev, In ev t /\ failed_with e0 ev /\ In e0 (chain err).
Proof.
  intros H. unfold_stream H. exec_explore H.
  all: try discriminate.
  all: injection H as ->.
  all: pick_cause cl.
Qed.

Lemma stream_error_cause cl cursor path t err :
  exec (stream cl cursor path) t (Some err) ->
  exists e0 ev, In ev t /\ failed_with e0 ev /\ In e0 (chain err).
Proof.
  intros H. unfold_stream H. exec_explore H.
  all: try discriminate.
  all: injection H as ->.
  all: pick_cause cl.
Qed.

(** X3: an error returned by [StreamFromRemote] names the stage that failed
    (the reset of the cursor or the streaming) and wraps, with [%w] at every
    level, an error that a call of this run returned: [errors.Is] finds the
    cause. *)
Theorem StreamFromRemote_error_cause cl cursor path t err :
  exec (StreamFromRemote cl cursor path) t (Some err) ->
  (exists inner,
     err = Errorf "failed to reset journald cursor file: %w" [ArgW inner] \/
     err = Errorf "failed to stream journal from remote: %w" [ArgW inner]) /\
  exists e0 ev, In ev t /\ failed_with e0 ev /\ In e0 (chain err).
Proof.
  intros H. apply StreamFromRemote_exec in H as (a & t' & -> & H).
  assert (Hstream : forall t2 streamErr,
            exec (stream cl cursor path) t2 streamErr ->
            Some err = wrap_stream streamErr ->
            (exists inner,
               err = Errorf "failed to reset journald cursor file: %w"
                            [ArgW inner] \/
               err = Errorf "failed to stream journal from remote: %w"
                            [ArgW inner]) /\
            exists e0 ev, In ev t2 /\ failed_with e0 ev /\ In e0 (chain err)).
  { intros t2 [e|] H2 [= ->].
    split; [eexists; right; reflexivity|].
    destruct (stream_error_cause _ _ _ _ _ H2) as (e0 & ev0 & Hin & Hf & Hc).
    exists e0, ev0. split; [exact Hin|]. split; [exact Hf|].
    cbn [chain]. right. exact Hc. }
  destruct (IsNotExist a).
  - destruct H as (t1 & reset & t2 & -> & H1 & H2).
    destruct reset as [e|].
    + destruct H2 as (-> & [= ->]).
      split; [eexists; left; reflexivity|].
      destruct (resetCursorFile_error_cause _ _ _ _ H1)
        as (e0 & ev0 & Hin & Hf & Hc).
      exists e0, ev0. split; [|split; [exact Hf|]].
      * right. right. apply in_or_app. left. exact Hin.
      * cbn [chain]. right. exact Hc.
    + destruct H2 as (streamErr & H2 & Hr).
      destruct (Hstream _ _ H2 Hr) as [Hfmt (e0 & ev0 & Hin & Hf & Hc)].
      split; [exact Hfmt|]. exists e0, ev0. split; [|auto].
      right. right. apply in_or_app. right. exact Hin.
  - destruct H as (streamErr & H2 & Hr).
    destruct (Hstream _ _ H2 Hr) as [Hfmt (e0 & ev0 & Hin & Hf & Hc)].
    split; [exact Hfmt|]. exists e0, ev0. split; [|auto].
    right. exact Hin.
Qed.

Lemma StreamFromRemote_error_cause_witness :
  let p := StreamFromRemote 7 "$HOME/mm.cursor" "/var/log/mm/default-m1.log" in
  let o := scripted unwritable_answers in
  exists err,
    (run o 0 p).2 = Some err /\
    exists e0 ev,
      In ev (run o 0 p).1 /\ failed_with e0 ev /\ In e0 (chain err).
Proof.
  intros p o. eexists. split; [vm_compute; reflexivity|].
  refine (proj2 (StreamFromRemote_error_cause 7 _ _ (run o 0 p).1 _ _)).
  exact (run_exec o p 0).
Defined.

(** ** The local files and the remote cursor across attempts *)

(** X4: [stream] changes no local file other than the journal, and returns
    with the table of open descriptors as it found it: the descriptor it
    opened is closed on every path that opened one. *)
Theorem stream_frame cl cursor path w t r w' :
  runs (stream cl cursor path) w t r w' ->
  fds w' = fds w /\
  forall q, q <> path -> files w' !! q = files w !! q.
Proof.
  intros H. unfold_stream H. runs_explore H.
  all: steps_simpl.
  all: try match goal with
           | H : open_files _ _ _ = Some _ |- _ =>
               apply open_files_journal in H as (c & Hc & Hsame & Hother)
           end.
  all: repeat match goal with
              | |- context [deliver ?s ?d ?W] =>
                  rewrite (deliver_append s _ path journal_flag 0 d W c)
                    in * by
                    first [ apply lookup_insert_eq | reflexivity | exact Hc ]
              end.
  all: world_simpl.
  all: split;
    [ rewrite ?insert_insert_eq, ?delete_insert_eq; try reflexivity;
      by apply delete_id
    | intros q Hq; rewrite ?lookup_insert_ne by done; auto ].
Qed.

Lemma stream_frame_witness :
  exists t w',
    runs (stream 7 demo_cursor demo_path) resumed_world t None w' /\
    fds w' = fds resumed_world /\
    forall q, q <> demo_path -> files w' !! q = files resumed_world !! q.
Proof.
  destruct resumed_run as (t & w' & H).
  exists t, w'. split; [exact H|].
  exact (stream_frame 7 demo_cursor demo_path resumed_world t None w' H).
Defined.

Lemma cancel_may_remote w w1 : cancel_may w w1 -> remote w1 = remote w.
Proof. by intros [-> | (_ & e & ->)]. Qed.

(** When the journal exists, [StreamFromRemote] is the existence check
    followed by [stream]. *)
Lemma StreamFromRemote_runs_present cl cursor path w t r w' :
  runs (StreamFromRemote cl cursor path) w t r w' ->
  is_Some (files w !! path) ->
  exists a w0 t' streamErr,
    cancel_may w w0 /\ t = (w0, EStat path a) :: t' /\
    runs (stream cl cursor path) w0 t' streamErr w' /\
    r = wrap_stream streamErr.
Proof.
  unfold StreamFromRemote. cbn [runs bind perform ev].
  intros (a & w0 & w1 & t' & C & S & -> & H) [c Hc].
  cbn [op_step] in S. destruct S as [-> S].
  exists a, w0, t'.
  assert (IsNotExist a = false) as Ha.
  { unfold stat_answer in S.
    rewrite (cancel_may_files _ _ C), Hc in S.
    destruct S as [-> | (no & Hno & ->)]; [reflexivity | by destruct no]. }
  apply runs_bind in H as (t1 & reset & wm & t2 & -> & H1 & H2).
  rewrite Ha in H1. destruct H1 as (-> & -> & ->). cbn [app].
  apply runs_bind in H2 as (t2a & streamErr & wm' & t2b & -> & H2 & H3).
  exists streamErr.
  destruct streamErr; destruct H3 as (-> & -> & ->); rewrite app_nil_r; auto.
Qed.

Lemma stream_runs_no_command cl cursor path w t r w' w0 s cmd res :
  runs (stream cl cursor path) w t r w' -> ~ In (w0, ERun s cmd res) t.
Proof.
  intros H Hin. apply runs_exec, stream_events in H.
  apply (in_map snd) in Hin.
  apply (proj1 (List.Forall_forall _ _) H) in Hin. discriminate.
Qed.

(** With the journal present, no cursor is reset. *)
Lemma present_journal_no_reset cl cursor path w t r w' :
  is_Some (files w !! path) ->
  runs (StreamFromRemote cl cursor path) w t r w' ->
  forall w0 s cmd res, ~ In (w0, ERun s cmd res) t.
Proof.
  intros Hc H.
  apply StreamFromRemote_runs_present in H
    as (a & w0 & t' & streamErr & C & -> & H & _); [|exact Hc].
  intros wr s cmd res [Hin|Hin]; [discriminate|].
  exact (stream_runs_no_command _ _ _ _ _ _ _ _ _ _ _ H Hin).
Qed.

(** X5: when the local journal exists, [StreamFromRemote] runs no command
    to reset the cursor, and the remote files are, when [session.Start] is
    called, what they were at entry: the follow command resumes from the
    cursor that is there. *)
Theorem existing_journal_keeps_cursor cl cursor path w t r w' :
  is_Some (files w !! path) ->
  runs (StreamFromRemote cl cursor path) w t r w' ->
  (forall w0 s cmd res, ~ In (w0, ERun s cmd res) t) /\
  (forall t1 w1 s cmd res t2,
     t = t1 ++ (w1, EStart s cmd res) :: t2 ->
     remote w1 = remote w /\ cmd = streamJournalAsRootCommand cursor).
Proof.
  intros Hc H.
  split; [exact (present_journal_no_reset _ _ _ _ _ _ _ Hc H)|].
  apply StreamFromRemote_runs_present in H
    as (a & w0 & t' & streamErr & C & -> & H & _); [|exact Hc].
  intros t1 w1 s cmd res t2 E.
  destruct t1 as [|x t1]; [discriminate|]. injection E as <- E.
  split.
  - rewrite (stream_start_remote _ _ _ _ _ _ _ _ _ _ _ _ _ H E).
    exact (cancel_may_remote _ _ C).
  - apply runs_exec in H.
    assert (E' : t'.*2 = t1.*2 ++ EStart s cmd res :: t2.*2)
      by (by rewrite E, fmap_app).
    clear -H E'. revert H E'. generalize (t'.*2), (t1.*2), (t2.*2).
    intros l l1 l2 H E.
    unfold_stream H. exec_explore H.
    all: split_at E; reflexivity.
Qed.

(** A later attempt through [StreamFromRemote]: the journal exists, the
    command delivers the second line and the context is cancelled. *)
Lemma resumed_attempt_run :
  exists t w',
    runs (StreamFromRemote 7 demo_cursor demo_path) resumed_world t None w' /\
    (exists w0 s, In (w0, ESelect s None) t) /\
    (exists w0, In (w0, ERecvWait 1 (Some (ExitError 143))) t).
Proof.
  eexists _, _. split; [|split].
  - unfold StreamFromRemote, resetCursorFile, stream, logErr,
      logSessionCloseErr.
    run_with (@None error). { split; [reflexivity|]. left. reflexivity. }
    cbn [IsNotExist bind].
    run_with (@Ok session 1%nat). { split; reflexivity. }
    run_with (@Ok fd 3%nat).
    { split; [reflexivity|]. eexists. split; reflexivity. }
    run_with tt. { reflexivity. }
    run_with tt. { reflexivity. }
    run_with tt. { reflexivity. }
    run_with (@None error). { reflexivity. }
    cbn [runs bind perform ev].
    exists (@None (option error)). eexists _, _, _.
    split; [right; split; [reflexivity|]; exists Canceled; reflexivity|].
    split; [cbn [op_step]; world_simpl; split; [discriminate|reflexivity]|].
    split; [reflexivity|].
    run_with (@None error). { reflexivity. }
    run_with (Some (ExitError 143)).
    { exists (list_byte_of_string "B
"), ∅. reflexivity. }
    run_with (Some EOF). { reflexivity. }
    cbn [is_EOF bind].
    run_with (@None error). { reflexivity. }
    run_with (Some Canceled). { split; reflexivity. }
    cbn [runs bind]. repeat split; reflexivity.
  - eexists _, _. in_list.
  - eexists. in_list.
Defined.

Lemma existing_journal_keeps_cursor_witness :
  exists t w',
    runs (StreamFromRemote 7 demo_cursor demo_path) resumed_world t None w' /\
    forall w0 s cmd res, ~ In (w0, ERun s cmd res) t.
Proof.
  destruct resumed_attempt_run as (t & w' & H & _).
  exists t, w'. split; [exact H|].
  refine (proj1 (existing_journal_keeps_cursor 7 demo_cursor demo_path
                   resumed_world t None w' _ H)).
  eexists. reflexivity.
Defined.

(** The journal exists after a run of [StreamFromRemote] that opened it. *)
Lemma StreamFromRemote_creates_journal cl cursor path w t r w' w0 flag perm f :
  runs (StreamFromRemote cl cursor path) w t r w' ->
  In (w0, EOpenFile path flag perm (Ok f)) t ->
  is_Some (files w' !! path).
Proof.
  intros H Hin.
  apply StreamFromRemote_runs in H as (a & wa & t' & Hf & Ha & -> & H).
  destruct Hin as [Hin|Hin]; [discriminate|].
  destruct (IsNotExist a).
  - destruct H as (wl & t1r & reset & wm & t2s & Hfl & -> & Hreset & H).
    destruct Hin as [Hin|Hin]; [discriminate|].
    apply in_app_or in Hin as [Hin|Hin].
    + apply runs_exec, resetCursorFile_events in Hreset as [Hev _].
      apply (in_map snd) in Hin.
      apply (proj1 (List.Forall_forall _ _) Hev) in Hin. discriminate.
    + destruct reset as [e|].
      * destruct H as (-> & _). destruct Hin.
      * destruct H as (streamErr & H & _).
        exact (stream_creates_journal _ _ _ _ _ _ _ _ _ _ _ H Hin).
  - destruct H as (streamErr & _ & H & _).
    exact (stream_creates_journal _ _ _ _ _ _ _ _ _ _ _ H Hin).
Qed.

(** X6: after an attempt that opened the journal, the next attempt on the
    world it left runs no command to reset the cursor, and the journal it
    leaves extends the journal it found. *)
Theorem next_attempt_resumes cl cursor path w t1 r1 w1 t2 r2 w2
        w0 flag perm f :
  runs (StreamFromRemote cl cursor path) w t1 r1 w1 ->
  In (w0, EOpenFile path flag perm (Ok f)) t1 ->
  runs (StreamFromRemote cl cursor path) w1 t2 r2 w2 ->
  (forall wr s cmd res, ~ In (wr, ERun s cmd res) t2) /\
  exists content1 content2,
    files w1 !! path = Some content1 /\
    files w2 !! path = Some content2 /\
    content1 `prefix_of` content2.
Proof.
  intros H1 Hin H2.
  pose proof (StreamFromRemote_creates_journal _ _ _ _ _ _ _ _ _ _ _ H1 Hin)
    as Hsome.
  split.
  - exact (present_journal_no_reset _ _ _ _ _ _ _ Hsome H2).
  - destruct Hsome as [content1 Hc1].
    apply StreamFromRemote_runs_present in H2
      as (a & wa & t' & streamErr & C & -> & H2 & _); [|by eexists].
    rewrite <- (cancel_may_files _ _ C) in Hc1.
    destruct (stream_extends_journal _ _ _ _ _ _ _ _ H2 Hc1)
      as (content2 & Hc2 & Hpre).
    exists content1, content2.
    rewrite <- (cancel_may_files _ _ C). auto.
Qed.

(** Two attempts in a row on a host that was never seen. *)
Lemma two_attempts_run :
  exists t1 w1 t2 w2,
    runs (StreamFromRemote 7 demo_cursor demo_path) stale_world t1 None w1 /\
    (exists w0 flag perm f, In (w0, EOpenFile demo_path flag perm (Ok f)) t1) /\
    runs (StreamFromRemote 7 demo_cursor demo_path) w1 t2 None w2.
Proof.
  eexists _, _, _, _. split; [|split].
  - unfold StreamFromRemote, resetCursorFile, stream, logErr,
      logSessionCloseErr.
    run_with (Some (PathError "stat" demo_path ENOENT)).
    { split; [reflexivity|]. left. reflexivity. }
    cbn [IsNotExist].
    run_with tt. { reflexivity. }
    run_with (@Ok session 0%nat). { split; reflexivity. }
    run_with tt. { reflexivity. }
    run_with tt. { reflexivity. }
    run_with tt. { reflexivity. }
    run_with (@None error).
    { eexists. split; [reflexivity|]. apply remote_exec_rm_force. by split. }
    run_with (Some EOF). { reflexivity. }
    cbn [is_EOF bind].
    run_with (@Ok session 1%nat). { split; reflexivity. }
    run_with (@Ok fd 3%nat).
    { split; [reflexivity|]. eexists. split; reflexivity. }
    run_with tt. { reflexivity. }
    run_with tt. { reflexivity. }
    run_with tt. { reflexivity. }
    run_with (@None error). { reflexivity. }
    run_with (Some (@None error)).
    { exists (list_byte_of_string "A
"), {[demo_cursor]}. reflexivity. }
    run_with (Some EOF). { reflexivity. }
    cbn [is_EOF bind].
    run_with (@None error). { reflexivity. }
    run_with (@None error). { split; reflexivity. }
    cbn [runs bind]. repeat split; reflexivity.
  - eexists _, _, _, _. in_list.
  - unfold StreamFromRemote, resetCursorFile, stream, logErr,
      logSessionCloseErr.
    run_with (@None error). { split; [reflexivity|]. left. reflexivity. }
    cbn [IsNotExist bind].
    run_with (@Ok session 2%nat). { split; reflexivity. }
    run_with (@Ok fd 3%nat).
    { split; [reflexivity|]. eexists. split; reflexivity. }
    run_with tt. { reflexivity. }
    run_with tt. { reflexivity. }
    run_with tt. { reflexivity. }
    run_with (@None error). { reflexivity. }
    run_with (Some (@None error)).
    { exists (list_byte_of_string "B
"), ∅. reflexivity. }
    run_with (Some EOF). { reflexivity. }
    cbn [is_EOF bind].
    run_with (@None error). { reflexivity. }
    run_with (@None error). { split; reflexivity. }
    cbn [runs bind]. repeat split; reflexivity.
Defined.

Lemma next_attempt_resumes_witness :
  exists t1 w1 t2 w2,
    runs (StreamFromRemote 7 demo_cursor demo_path) stale_world t1 None w1 /\
    runs (StreamFromRemote 7 demo_cursor demo_path) w1 t2 None w2 /\
    (forall wr s cmd res, ~ In (wr, ERun s cmd res) t2) /\
    exists content1 content2,
      files w1 !! demo_path = Some content1 /\
      files w2 !! demo_path = Some content2 /\
      content1 `prefix_of` content2.
Proof.
  destruct two_attempts_run
    as (t1 & w1 & t2 & w2 & H1 & (w0 & flag & perm & f & Hin) & H2).
  exists t1, w1, t2, w2. split; [exact H1|]. split; [exact H2|].
  exact (next_attempt_resumes 7 demo_cursor demo_path stale_world
           t1 None w1 t2 None w2 w0 flag perm f H1 Hin H2).
Defined.

Lemma cancelled_stop_returns_nil_witness :
  exists t r w',
    runs (StreamFromRemote 7 demo_cursor demo_path) resumed_world t r w' /\
    (exists w0, In (w0, ERecvWait 1 (Some (ExitError 143))) t) /\ r = None.
Proof.
  destruct resumed_attempt_run as (t & w' & H & (w0 & s & Hin) & Hwait).
  exists t, None, w'. split; [exact H|]. split; [exact Hwait|].
  exact (cancelled_stop_returns_nil 7 demo_cursor demo_path resumed_world
           t None w' w0 s H Hin).
Defined.

Lemma stream_closes_after_start_witness :
  let p := stream 7 "$HOME/mm.cursor" "/var/log/mm/default-m1.log" in
  let o := scripted close_failing_answers in
  exists t1 cmd t2,
    (run o 0 p).1 = t1 ++ EStart 0 cmd None :: t2 /\
    (exists closeErr, In (ESessClose 0 closeErr) t2) /\
    (exists closeErr, In (EFileClose 1 closeErr) t2) /\
    (run o 0 p).2 =
      Some (Errorf "unexpected error running journalctl on remote host: %w"
              [ArgW (ExitError 1)]).
Proof.
  intros p o.
  exists (firstn 5 (run o 0 p).1), (streamJournalAsRootCommand "$HOME/mm.cursor"),
    (skipn 6 (run o 0 p).1).
  assert (E : (run o 0 p).1 =
              firstn 5 (run o 0 p).1
                ++ EStart 0 (streamJournalAsRootCommand "$HOME/mm.cursor") None
                :: skipn 6 (run o 0 p).1) by reflexivity.
  split; [exact E|].
  destruct (stream_closes_after_start 7 _ _ _ _ _ 0%nat 1%nat _ _
              (run_exec o p 0) E) as (Hs & Hf & _).
  - vm_compute. tauto.
  - split; [exact Hs|]. split; [exact Hf|]. reflexivity.
Defined.

(** ** Reconcile: the whole function *)

(** The executions of [Reconcile], case by case. *)
Lemma Reconcile_exec path_Join rc namespace name t res :
  exec (Reconcile path_Join rc namespace name) t res ->
  (exists c, t = [ECtxCause (Some c)] /\ res = (Result_zero, Some c)) \/
  exists m,
    (exists e,
       t = [ECtxCause None; EClientGet namespace name (m, Some e)] /\
       res = (Result_zero,
              Some (Errorf "failed to get machine %s: %w"
                      [ArgS (namespace ++ "/" ++ name)%string; ArgW e]))) \/
    (t = [ECtxCause None; EClientGet namespace name (m, None)] /\
     machineIP_of (Addresses m) = "" /\ res = (Result_zero, None)) \/
    machineIP_of (Addresses m) <> "" /\
    ((exists e,
        t = reconcile_prefix namespace name m ++
            [EParsePrivateKey (SSHPrivateKey rc) (Fail e)] /\
        res = (Result_zero,
               Some (Errorf "failed to create SSH client: %w"
                       [ArgW (Errorf "error parsing private key: %s"
                                     [ArgV e])]))) \/
     exists signer,
       let dial :=
         ESshDial "tcp"
           (machineIP_of (Addresses m) ++ ":" ++ pretty (SSHPort rc))%string
           (SSHUser rc) signer in
       (exists e,
          t = reconcile_prefix namespace name m ++
              [EParsePrivateKey (SSHPrivateKey rc) (Ok signer);
               dial (Fail e)] /\
          res = (Result_zero,
                 Some (Errorf "failed to create SSH client: %w"
                         [ArgW (Errorf "error dialing SSH server: %s"
                                       [ArgV e])]))) \/
       exists sshClient tS streamErr closeErr,
         t = reconcile_prefix namespace name m ++
             [EParsePrivateKey (SSHPrivateKey rc) (Ok signer);
              dial (Ok sshClient)] ++
             tS ++ EClientClose sshClient closeErr ::
             close_client_log closeErr /\
         exec (StreamFromRemote sshClient (RemoteJournaldCursorFilePath rc)
                 (path_Join (LocalJournalDirectory rc)
                    (journalFileName (Namespace m) (Name m))))
              tS streamErr /\
         res = (Result_zero, wrap_import streamErr)).
Proof.
  unfold Reconcile, ReconcileWith. cbn [exec bind perform ev].
  intros (cause & t1 & -> & H). destruct cause as [c|].
  { left. destruct H as [-> ->]. eauto. }
  right. cbn [exec bind perform ev] in H.
  destruct H as ([m err] & t2 & -> & H). exists m. cbn [fst snd] in H.
  destruct err as [e|].
  { left. destruct H as [-> ->]. eauto. }
  right. cbn [IsNotFound] in H.
  destruct (String.eqb_spec (machineIP_of (Addresses m)) "") as [Hip|Hip].
  { left. destruct H as [-> ->]. auto. }
  right. split; [exact Hip|].
  unfold ssh.NewClient in H. cbn [exec bind perform ev] in H.
  destruct H as (? & t3 & -> & key & t4 & -> & H).
  destruct key as [signer|e].
  2:{ left. cbn [exec bind] in H. destruct H as [-> ->]. eauto. }
  right. exists signer. cbn [exec bind perform ev] in H.
  destruct H as (d & t5 & -> & H). destruct d as [sshClient|e].
  2:{ left. cbn [exec bind] in H. destruct H as [-> ->]. eauto. }
  right. cbn [bind] in H.
  apply exec_bind in H as (tS & streamErr & t6 & -> & HS & H).
  cbn [exec bind perform ev] in H.
  destruct H as (closeErr & t7 & -> & H).
  exists sshClient, tS, streamErr, closeErr.
  split; [|split; [exact HS|]].
  - unfold reconcile_prefix, close_client_log. cbn [app]. do 5 f_equal.
    unfold logErr in H. destruct closeErr as [e|]; cbn [exec bind perform ev] in H.
    + destruct H as (? & t8 & -> & H). destruct streamErr; destruct H as [-> _];
        reflexivity.
    + destruct streamErr; destruct H as [-> _]; reflexivity.
  - unfold logErr in H. destruct closeErr as [e|]; cbn [exec bind perform ev] in H.
    + destruct H as (? & t8 & -> & H). destruct streamErr; destruct H as [_ ->];
        reflexivity.
    + destruct streamErr; destruct H as [_ ->]; reflexivity.
Qed.

(** [StreamFromRemote] makes none of the calls of the reconciler, and every
    local path it names is the path of the journal. *)
Lemma StreamFromRemote_events cl cursor path t r :
  exec (StreamFromRemote cl cursor path) t r ->
  Forall (fun e => reconciler_event e = false) t /\
  (forall p a, In (EStat p a) t -> p = path) /\
  (forall p flag perm res, In (EOpenFile p flag perm res) t -> p = path).
Proof.
  intros H. apply StreamFromRemote_exec in H as (a & t' & -> & H).
  assert (Hreset : forall t1 x, exec (resetCursorFile cl cursor) t1 x ->
            forall e, In e t1 -> reset_event e = true).
  { intros t1 x H1. apply resetCursorFile_events in H1 as [H1 _].
    apply List.Forall_forall. exact H1. }
  assert (Hstream : forall t2 x, exec (stream cl cursor path) t2 x ->
            forall e, In e t2 -> stream_event e = true).
  { intros t2 x H2. apply stream_events in H2.
    apply List.Forall_forall. exact H2. }
  assert (Hin : forall e, In e t' ->
            (exists t2 x, exec (stream cl cursor path) t2 x /\ In e t2) \/
            reset_event e = true).
  { intros e He. destruct (IsNotExist a).
    - destruct H as (t1 & reset & t2 & -> & H1 & H2).
      destruct He as [<-|He]; [right; reflexivity|].
      apply in_app_or in He as [He|He]; [right; eapply Hreset; eauto|].
      destruct reset as [e0|].
      + destruct H2 as [-> _]. destruct He.
      + destruct H2 as (x & H2 & _). left. eauto.
    - destruct H as (x & H2 & _). left. eauto. }
  split; [|split].
  - apply List.Forall_forall. intros e [<-|He]; [reflexivity|].
    destruct (Hin e He) as [(t2 & x & H2 & He2)|Hr].
    + apply (Hstream _ _ H2) in He2. by destruct e.
    + by destruct e.
  - intros p a0 [[= <- _]|He]; [reflexivity|].
    destruct (Hin _ He) as [(t2 & x & H2 & He2)|Hr]; [|discriminate].
    apply (Hstream _ _ H2) in He2. discriminate.
  - intros p flag perm res [|He]; [discriminate|].
    destruct (Hin _ He) as [(t2 & x & H2 & He2)|Hr]; [|discriminate].
    exact (proj1 (stream_open_flag _ _ _ _ _ _ _ _ _ H2 He2)).
Qed.

(** X7: [Reconcile] never asks for a requeue: on every path it returns
    [ctrl.Result{}]; and it returns a nil error only when no address is
    known or [StreamFromRemote] has run and returned nil. *)
Theorem Reconcile_never_requeues path_Join rc namespace name t res :
  exec (Reconcile path_Join rc namespace name) t res ->
  Requeue res.1 = false /\ RequeueAfter res.1 = 0%Z /\
  (res.2 = None ->
   exists m,
     (t = [ECtxCause None; EClientGet namespace name (m, None)] /\
      machineIP_of (Addresses m) = "") \/
     exists sshClient t1 tS t2,
       t = t1 ++ tS ++ t2 /\
       exec (StreamFromRemote sshClient (RemoteJournaldCursorFilePath rc)
               (path_Join (LocalJournalDirectory rc)
                  (journalFileName (Namespace m) (Name m))))
            tS None).
Proof.
  intros H. apply Reconcile_exec in H.
  destruct H as [(c & -> & ->) | (m & [(e & -> & ->) | [(-> & Hip & ->) |
    (_ & [(e & -> & ->) | (signer & [(e & -> & ->) |
      (cl & tS & streamErr & closeErr & -> & HS & ->)])])]])];
    cbn [fst snd]; (split; [reflexivity|]); (split; [reflexivity|]);
    try discriminate.
  - intros _. exists m. left. auto.
  - intros Hr. destruct streamErr; [discriminate|]. exists m. right.
    eexists cl, _, tS, _. split; [|exact HS].
    rewrite app_assoc. reflexivity.
Qed.

Lemma Reconcile_never_requeues_witness :
  let p := Reconcile demo_join demo_reconciler "default" "m1" in
  let o := scripted refusing_answers in
  (run o 0 p).2.2 <> None /\
  Requeue (run o 0 p).2.1 = false /\ RequeueAfter (run o 0 p).2.1 = 0%Z.
Proof.
  intros p o. split; [discriminate|].
  destruct (Reconcile_never_requeues demo_join demo_reconciler "default" "m1"
              _ _ (run_exec o p 0)) as (H1 & H2 & _).
  split; [exact H1 | exact H2].
Defined.

(** X8: once the SSH dial has succeeded, [Reconcile] closes the client
    exactly once, after [StreamFromRemote] has returned and whether or not
    it failed; the error of the close is logged and never returned. *)
Theorem Reconcile_closes_client path_Join rc namespace name t res
        t1 network addr user signer sshClient t2 :
  exec (Reconcile path_Join rc namespace name) t res ->
  t = t1 ++ ESshDial network addr user signer (Ok sshClient) :: t2 ->
  exists m tS streamErr closeErr,
    t1 = reconcile_prefix namespace name m ++
         [EParsePrivateKey (SSHPrivateKey rc) (Ok signer)] /\
    t2 = tS ++ EClientClose sshClient closeErr :: close_client_log closeErr /\
    Forall (fun e => reconciler_event e = false) tS /\
    (exists cursor path,
       exec (StreamFromRemote sshClient cursor path) tS streamErr) /\
    res = (Result_zero, wrap_import streamErr).
Proof.
  intros H E. apply Reconcile_exec in H.
  destruct H as [(c & -> & ->) | (m & [(e & -> & ->) | [(-> & Hip & ->) |
    (_ & [(e & -> & ->) | (signer0 & [(e & -> & ->) |
      (cl & tS & streamErr & closeErr & -> & HS & ->)])])]])];
    unfold reconcile_prefix in E; cbn [app] in E.
  1-5: split_at E.
  pose proof (StreamFromRemote_events _ _ _ _ _ HS) as (Hev & _).
  assert (Hno : ~ In (ESshDial network addr user signer (Ok sshClient))
                   (tS ++ EClientClose cl closeErr :: close_client_log closeErr)).
  { intros Hin. apply in_app_or in Hin as [Hin|Hin].
    - apply (proj1 (List.Forall_forall _ _) Hev) in Hin. discriminate.
    - destruct closeErr; in_cases Hin. }
  destruct t1 as [|x1 t1]; [discriminate|]. injection E as <- E.
  destruct t1 as [|x2 t1]; [discriminate|]. injection E as <- E.
  destruct t1 as [|x3 t1]; [discriminate|]. injection E as <- E.
  destruct t1 as [|x4 t1]; [discriminate|]. injection E as <- E.
  destruct t1 as [|x5 t1].
  - injection E as <- <- <- <- <- <-.
    exists m, tS, streamErr, closeErr. split; [reflexivity|].
    split; [reflexivity|].
    split; [exact Hev|]. split; [eauto|reflexivity].
  - injection E as <- E. destruct Hno. rewrite E.
    apply in_or_app. right. left. reflexivity.
Qed.

Lemma Reconcile_closes_client_witness :
  let p := Reconcile demo_join demo_reconciler "default" "m1" in
  let o := scripted refusing_answers in
  exists t1 signer sshClient tS closeErr,
    (run o 0 p).1 =
      t1 ++ ESshDial "tcp" "10.0.0.7:22" "core" signer (Ok sshClient)
         :: tS ++ EClientClose sshClient closeErr :: close_client_log closeErr /\
    Forall (fun e => reconciler_event e = false) tS /\
    (run o 0 p).2.2 <> None.
Proof.
  intros p o.
  assert (E : (run o 0 p).1 =
              firstn 4 (run o 0 p).1
                ++ ESshDial "tcp" "10.0.0.7:22" "core" 0%nat (Ok 4%nat)
                :: skipn 5 (run o 0 p).1) by reflexivity.
  destruct (Reconcile_closes_client demo_join demo_reconciler "default" "m1"
              _ _ _ _ _ _ _ _ _ (run_exec o p 0) E)
    as (m & tS & streamErr & closeErr & _ & E2 & Hev & _ & _).
  exists (firstn 4 (run o 0 p).1), 0%nat, 4%nat, tS, closeErr.
  split; [|split; [exact Hev | discriminate]].
  rewrite <- E2. exact E.
Defined.

(** ** The journal of a machine *)

(** X9: the only local path [Reconcile] checks or opens is the journal of
    the machine that the get returned: [path.Join] of the local journal
    directory and [<namespace>-<name>.log]; and the only remote commands
    are the forced delete and the follow command of the configured cursor
    path. *)
Theorem Reconcile_journal_path path_Join rc namespace name t res :
  exec (Reconcile path_Join rc namespace name) t res ->
  forall m err, In (EClientGet namespace name (m, err)) t ->
  let journal := path_Join (LocalJournalDirectory rc)
                   (journalFileName (Namespace m) (Name m)) in
  (forall p a, In (EStat p a) t -> p = journal) /\
  (forall p flag perm r, In (EOpenFile p flag perm r) t -> p = journal) /\
  (forall s cmd r, In (ERun s cmd r) t ->
     cmd = removeCursorFileCommand (RemoteJournaldCursorFilePath rc)) /\
  (forall s cmd r, In (EStart s cmd r) t ->
     cmd = streamJournalAsRootCommand (RemoteJournaldCursorFilePath rc)).
Proof.
  intros H m0 err0 Hget journal. apply Reconcile_exec in H.
  destruct H as [(c & -> & ->) | (m & [(e & -> & ->) | [(-> & Hip & ->) |
    (_ & [(e & -> & ->) | (signer0 & [(e & -> & ->) |
      (cl & tS & streamErr & closeErr & -> & HS & ->)])])]])];
    unfold reconcile_prefix in *; cbn [app] in *.
  1-5: repeat split; intros; match goal with
                              | H : In _ _ |- _ => in_cases H
                              end.
  assert (m0 = m) as ->.
  { destruct Hget as [Hget|[Hget|[Hget|[Hget|[Hget|Hget]]]]];
      try discriminate; [by injection Hget|].
    apply in_app_or in Hget as [Hget|Hget].
    - apply StreamFromRemote_events in HS as (Hev & _).
      apply (proj1 (List.Forall_forall _ _) Hev) in Hget. discriminate.
    - destruct closeErr; in_cases Hget. }
  assert (Hin : forall e, reconciler_event e = false ->
            (forall v msg kvs, e <> ELogInfo v msg kvs) ->
            (forall e0 msg, e <> ELogError e0 msg) ->
            In e (ECtxCause None :: EClientGet namespace name (m, None)
                  :: ELogInfo 1 "Machine IP found"
                       [("name", Name m); ("ip", machineIP_of (Addresses m))]
                  :: EParsePrivateKey (SSHPrivateKey rc) (Ok signer0)
                  :: ESshDial "tcp"
                       (machineIP_of (Addresses m) ++ ":" ++ pretty (SSHPort rc))%string
                       (SSHUser rc) signer0 (Ok cl)
                  :: tS ++ EClientClose cl closeErr :: close_client_log closeErr) ->
            In e tS).
  { intros e He Hl1 Hl2 Hin.
    destruct Hin as [<-|[<-|[<-|[<-|[<-|Hin]]]]]; try discriminate.
    - exfalso. by eapply Hl1.
    - apply in_app_or in Hin as [Hin|[<-|Hin]]; [exact Hin|discriminate|].
      destruct closeErr as [e1|]; [|destruct Hin].
      destruct Hin as [<-|[]]. exfalso. by eapply Hl2. }
  pose proof (StreamFromRemote_events _ _ _ _ _ HS) as (_ & Hstat & Hopen).
  split; [|split; [|split]].
  - intros p a Hp. apply Hin in Hp; [|done..]. eapply Hstat; eauto.
  - intros p flag perm r Hp. apply Hin in Hp; [|done..]. eapply Hopen; eauto.
  - intros s cmd r Hp. apply Hin in Hp; [|done..].
    apply StreamFromRemote_exec in HS as (a & t' & -> & HS).
    destruct Hp as [Hp|Hp]; [discriminate|].
    destruct (IsNotExist a).
    + destruct HS as (t1 & reset & t2 & -> & H1 & H2).
      destruct Hp as [Hp|Hp]; [discriminate|].
      apply in_app_or in Hp as [Hp|Hp].
      * clear H2. unfold_stream H1. exec_explore H1.
        all: in_cases Hp; by simplify_eq.
      * destruct reset; [destruct H2 as [-> _]; destruct Hp|].
        destruct H2 as (x & H2 & _). apply stream_events in H2.
        apply (proj1 (List.Forall_forall _ _) H2) in Hp. discriminate.
    + destruct HS as (x & H2 & _). apply stream_events in H2.
      apply (proj1 (List.Forall_forall _ _) H2) in Hp. discriminate.
  - intros s cmd r Hp. apply Hin in Hp; [|done..].
    apply StreamFromRemote_exec in HS as (a & t' & -> & HS).
    destruct Hp as [Hp|Hp]; [discriminate|].
    assert (Hs : forall t2 x, exec (stream cl (RemoteJournaldCursorFilePath rc)
                  (path_Join (LocalJournalDirectory rc)
                     (journalFileName (Namespace m) (Name m)))) t2 x ->
              In (EStart s cmd r) t2 ->
              cmd = streamJournalAsRootCommand (RemoteJournaldCursorFilePath rc)).
    { intros t2 x H2 Hp2. unfold_stream H2. exec_explore H2.
      all: in_cases Hp2; by simplify_eq. }
    destruct (IsNotExist a).
    + destruct HS as (t1 & reset & t2 & -> & H1 & H2).
      destruct Hp as [Hp|Hp]; [discriminate|].
      apply in_app_or in Hp as [Hp|Hp].
      * apply resetCursorFile_events in H1 as [H1 _].
        apply (proj1 (List.Forall_forall _ _) H1) in Hp. discriminate.
      * destruct reset; [destruct H2 as [-> _]; destruct Hp|].
        destruct H2 as (x & H2 & _). eauto.
    + destruct HS as (x & H2 & _). eauto.
Qed.

Lemma Reconcile_journal_path_witness :
  let p := Reconcile demo_join demo_reconciler "default" "m1" in
  let o := scripted refusing_answers in
  In (EStat "/var/log/mm/default-m1.log" None) (run o 0 p).1 /\
  forall q a, In (EStat q a) (run o 0 p).1 -> q = "/var/log/mm/default-m1.log".
Proof.
  intros p o. split; [vm_compute; tauto|].
  refine (proj1 (Reconcile_journal_path demo_join demo_reconciler
                   "default" "m1" _ _ (run_exec o p 0) machine_m1 None _)).
  vm_compute. tauto.
Defined.

Lemma string_length_app (a b : string) :
  String.length (a ++ b) = (String.length a + String.length b)%nat.
Proof.
  induction a as [|x a IH]; [reflexivity|].
  rewrite append_cons. cbn [String.length]. by rewrite IH.
Qed.

(** X10: the file name of the journal does not determine the machine: a
    dash can be read as part of the namespace or as part of the name, so
    the machines [a-b/c] and [a/b-c], which differ, share one journal
    file. *)
Theorem journalFileName_collision (a b c : string) :
  journalFileName (a ++ "-" ++ b) c = journalFileName a (b ++ "-" ++ c) /\
  (a ++ "-" ++ b)%string <> a.
Proof.
  split.
  - unfold journalFileName. by rewrite !string_app_assoc.
  - intros E. apply (f_equal String.length) in E.
    rewrite !string_length_app in E. cbn [String.length] in E. lia.
Qed.

(** ** The address of a machine *)

Lemma machineIP_of_first l1 a l2 :
  (forall x, In x l1 -> Type_ x <> MachineInternalIP) ->
  Type_ a = MachineInternalIP ->
  machineIP_of (l1 ++ a :: l2) = Address a.
Proof.
  intros Hl1 Ha. induction l1 as [|x l1 IH]; cbn [app machineIP_of].
  - rewrite Ha. reflexivity.
  - destruct (String.eqb_spec (Type_ x) MachineInternalIP) as [E|_].
    + destruct (Hl1 x); [by left | exact E].
    + apply IH. intros y Hy. apply Hl1. by right.
Qed.

(** X11: the address [Reconcile] uses is the one of the first entry of type
    InternalIP, whatever follows it; when that entry has an empty address,
    [Reconcile] does nothing, even if a later entry of type InternalIP has
    an address. *)
Theorem first_internal_ip_decides path_Join rc namespace name m l1 a l2 t res :
  Addresses m = l1 ++ a :: l2 ->
  (forall x, In x l1 -> Type_ x <> MachineInternalIP) ->
  Type_ a = MachineInternalIP ->
  machineIP_of (Addresses m) = Address a /\
  (Address a = "" ->
   exec (Reconcile path_Join rc namespace name)
     (ECtxCause None :: EClientGet namespace name (m, None) :: t) res ->
   t = [] /\ res = (Result_zero, None)).
Proof.
  intros Hm Hl1 Ha. rewrite Hm.
  pose proof (machineIP_of_first l1 a l2 Hl1 Ha) as Hip.
  split; [exact Hip|].
  intros Hempty H. apply Reconcile_exec in H.
  destruct H as [(c & E & _) | (m' & [(e & E & _) | [(E & _ & ->) |
    (Hne & [(e & E & _) | (signer & [(e & E & _) |
      (cl & tS & streamErr & closeErr & E & _)])])]])];
    try discriminate E.
  - injection E as _ ->. auto.
  - injection E as <- _. destruct Hne. by rewrite Hm, Hip.
  - injection E as <- _. destruct Hne. by rewrite Hm, Hip.
  - injection E as <- _. destruct Hne. by rewrite Hm, Hip.
Qed.

Lemma first_internal_ip_decides_witness :
  let m := {| Namespace := "default"; Name := "m1";
              Addresses := [ {| Type_ := "Hostname"; Address := "m1" |};
                             {| Type_ := "InternalIP"; Address := "" |};
                             {| Type_ := "InternalIP";
                                Address := "10.0.0.7" |} ] |} in
  let t := [ECtxCause None; EClientGet "default" "m1" (m, None)] in
  exec (Reconcile demo_join demo_reconciler "default" "m1") t
       (Result_zero, None) /\
  machineIP_of (Addresses m) = "".
Proof.
  intros m t.
  assert (H : exec (Reconcile demo_join demo_reconciler "default" "m1") t
                (Result_zero, None)).
  { unfold Reconcile, ReconcileWith. subst t. exec_build. }
  split; [exact H|].
  refine (proj1 (first_internal_ip_decides demo_join demo_reconciler
            "default" "m1" m [ {| Type_ := "Hostname"; Address := "m1" |} ]
            {| Type_ := "InternalIP"; Address := "" |}
            [ {| Type_ := "InternalIP"; Address := "10.0.0.7" |} ]
            [] (Result_zero, None) eq_refl _ eq_refl)).
  intros x [<-|[]]. discriminate.
Defined.

(** ** ssh.NewClient *)

(** X13: [NewClient] dials only after the private key was parsed, over
    ["tcp"] to [<ip>:<port>] with the user and the signer of the key; when
    it fails, its error carries the cause with [%s] and does not wrap it:
    [errors.Unwrap] gives nil and the chain that [errors.Is] walks holds
    the error alone. *)
Theorem NewClient_error_not_wrapped machineIP port user privateKey t r :
  exec (ssh.NewClient machineIP port user privateKey) t r ->
  (forall network addr u signer res,
     In (ESshDial network addr u signer res) t ->
     network = "tcp" /\ addr = (machineIP ++ ":" ++ pretty port)%string /\
     u = user /\ In (EParsePrivateKey privateKey (Ok signer)) t) /\
  (forall err, r = Fail err ->
     Unwrap err = None /\ chain err = [err] /\
     exists e0 ev format,
       In ev t /\ failed_with e0 ev /\ err = Errorf format [ArgV e0]) /\
  (forall cl, r = Ok cl ->
     exists signer,
       t = [EParsePrivateKey privateKey (Ok signer);
            ESshDial "tcp" (machineIP ++ ":" ++ pretty port)%string user signer
              (Ok cl)]).
Proof.
  intros H. unfold ssh.NewClient in H. split; [|split].
  - intros network addr u signer res Hin. exec_explore H.
    all: in_cases Hin; simplify_eq; repeat split; in_list.
  - intros err ->. exec_explore H.
    all: try discriminate.
    all: injection H as ->.
    all: split; [reflexivity|]; split; [reflexivity|].
    all: eexists _, _, _;
      first [ solve [split; [left; reflexivity | split; reflexivity]]
            | solve [split; [right; left; reflexivity | split; reflexivity]] ].
  - intros cl ->. exec_explore H.
    all: try discriminate.
    injection H as ->. eexists. reflexivity.
Qed.

Lemma NewClient_error_not_wrapped_witness :
  let t := [EParsePrivateKey [] (Ok 0%nat);
            ESshDial "tcp" "10.0.0.7:22" "core" 0%nat
              (Fail (ErrorString "dial tcp 10.0.0.7:22: connection refused"))] in
  let err := Errorf "error dialing SSH server: %s"
               [ArgV (ErrorString
                        "dial tcp 10.0.0.7:22: connection refused")] in
  exec (ssh.NewClient "10.0.0.7" 22 "core" []) t (Fail err) /\
  Unwrap err = None /\ chain err = [err].
Proof.
  intros t err.
  assert (H : exec (ssh.NewClient "10.0.0.7" 22 "core" []) t (Fail err)).
  { unfold ssh.NewClient. subst t err. exec_build. }
  split; [exact H|].
  destruct (proj1 (proj2 (NewClient_error_not_wrapped _ _ _ _ _ _ H))
              err eq_refl) as (Hu & Hc & _).
  split; [exact Hu | exact Hc].
Defined.

(** ** DialContext: the errors and the blocked sides *)

Lemma dial_run_snoc ls l s :
  dial_run init (ls ++ [l]) = Some s ->
  exists s0, dial_run init ls = Some s0 /\ dial_step s0 l = Some s.
Proof.
  rewrite dial_run_app. destruct (dial_run init ls) as [s0|]; [|discriminate].
  cbn [dial_run]. destruct (dial_step s0 l) as [s1|] eqn:E; [|discriminate].
  intros [= <-]. eauto.
Qed.

Lemma raised_snoc ls l e : raised ls e -> raised (ls ++ [l]) e.
Proof.
  unfold raised. intros [H|[H|H]]; [left|right; left|right; right];
    apply in_or_app; by left.
Qed.

Lemma dial_history_run ls : forall s,
  dial_run init ls = Some s -> dial_history ls s.
Proof.
  induction ls as [|l ls IH] using rev_ind; intros s Hr.
  - injection Hr as <-. repeat split; intros; discriminate.
  - apply dial_run_snoc in Hr as (s0 & Hr0 & Hs).
    destruct (IH _ Hr0) as (Hm & Hg & Hc). clear IH Hr0.
    assert (Hin : forall x, In x ls -> In x (ls ++ [l]))
      by (intros; apply in_or_app; by left).
    assert (Hlast : In l (ls ++ [l]))
      by (apply in_or_app; right; by left).
    destruct s0 as [m g c k]. unfold dial_step in Hs.
    cbn [mpc gpc conn cause] in *.
    destruct l; destruct m as [| |cl0 err0]; destruct g as [| |cl1 err1|];
      destruct k as [e0|]; try discriminate Hs; injection Hs as <-;
      unfold dial_history; cbn [mpc gpc conn cause];
      (split; [|split]); intros; simplify_eq;
      try (by apply raised_snoc; eauto);
      try (by apply Hin; eauto);
      try (by right; right; apply Hin; eauto);
      try (by left);
      try (by right; left);
      try (by right; right).
    all: first [exact Hlast | right; left; apply Hin; eauto].
Qed.

(** X14: the error [DialContext] returns is one that occurred in the call:
    the error of the dial, the error of the handshake, or the cause of the
    cancellation of the context. *)
Theorem dial_error_provenance ls s cl e :
  dial_run init ls = Some s ->
  mpc s = MReturned cl (Some e) ->
  In (DialFail e) ls \/ In (HandshakeFail e) ls \/ In (Cancel e) ls.
Proof.
  intros Hr Hm. destruct (dial_history_run _ _ Hr) as (H & _).
  exact (H _ _ Hm).
Qed.

Lemma dial_error_provenance_witness :
  let e := ErrorString "ssh: handshake failed" in
  let ls := [DialOk; HandshakeFail e; Handoff] in
  exists s,
    dial_run init ls = Some s /\
    mpc s = MReturned None (Some e) /\
    (In (DialFail e) ls \/ In (HandshakeFail e) ls \/ In (Cancel e) ls).
Proof.
  intros e ls. eexists. split; [reflexivity|]. split; [reflexivity|].
  exact (dial_error_provenance ls _ None e eq_refl eq_refl).
Defined.

Lemma dial_live_step s l s' :
  dial_inv s -> dial_live s -> dial_step s l = Some s' -> dial_live s'.
Proof.
  destruct s as [m g c k]. unfold dial_inv, dial_live, dial_step.
  cbn [mpc gpc conn cause]. intros Hi Hl Hs.
  destruct l; destruct m as [| |[?|] [?|]]; destruct g as [| |[?|] [?|]|];
    destruct k; try discriminate Hs; try destruct Hi;
    injection Hs as <-; cbn [mpc gpc conn cause]; try exact I; try done.
Qed.

Lemma dial_live_run ls : forall s s',
  dial_inv s -> dial_live s -> dial_run s ls = Some s' -> dial_live s'.
Proof.
  induction ls as [|l ls IH]; intros s s' Hi Hl Hr; cbn [dial_run] in Hr.
  - by injection Hr as <-.
  - destruct (dial_step s l) as [s1|] eqn:E; [|discriminate].
    eapply IH; [| |exact Hr].
    + eapply dial_inv_step; eauto.
    + eapply dial_live_step; eauto.
Qed.

(** X15: neither side of [DialContext] stays blocked on the channel: once
    the handshake has ended, the goroutine can always finish, by handing
    its result over or through [ctx.Done]; and the caller in its select
    can always return unless the handshake is still going on and the
    context is not cancelled. *)
Theorem dial_no_blocked_side ls s :
  dial_run init ls = Some s ->
  (forall cl err, gpc s = GSelect cl err ->
     exists l s', dial_step s l = Some s' /\ gpc s' = GFinished) /\
  (mpc s = MSelect -> gpc s <> GHandshake \/ cause s <> None ->
     exists l s' cl err,
       dial_step s l = Some s' /\ mpc s' = MReturned cl err).
Proof.
  intros Hr.
  pose proof (dial_inv_run _ _ _ dial_inv_init Hr) as Hi.
  pose proof (dial_live_run _ _ _ dial_inv_init I Hr) as Hl.
  destruct s as [m g c k]. unfold dial_inv, dial_live, dial_step in *.
  cbn [mpc gpc conn cause] in *. split.
  - intros cl err ->.
    destruct k as [e|].
    + exists GoDone. eexists. split; reflexivity.
    + destruct m as [| |cl0 err0]; [by destruct cl, err | | done].
      exists Handoff. eexists. split; reflexivity.
  - intros -> Hor. destruct k as [e|].
    + exists MainDone. eexists _, _, _. split; reflexivity.
    + destruct Hor as [Hg|Hc]; [|done].
      destruct g as [| |cl err|]; try done.
      exists Handoff. eexists _, _, _. split; reflexivity.
Qed.

Lemma dial_no_blocked_side_witness :
  exists s l s',
    dial_run init [DialOk; Cancel Canceled; MainDone; HandshakeOk] = Some s /\
    gpc s = GSelect (Some the_client) None /\
    dial_step s l = Some s' /\ gpc s' = GFinished.
Proof.
  eexists.
  destruct (proj1 (dial_no_blocked_side
                     [DialOk; Cancel Canceled; MainDone; HandshakeOk] _
                     eq_refl) (Some the_client) None eq_refl)
    as (l & s' & Hs & Hg).
  exists l, s'. split; [reflexivity|]. split; [reflexivity|].
  split; [exact Hs | exact Hg].
Defined.

(** ** The cursor path on the remote command line *)





(** ** The dial through a bastion *)

Ltac dexec_explore H :=
  repeat first
    [ progress (cbn [bastion.dexec bastion.dbind bastion.dperform bastion.dev]
                  in H)
    | match type of H with
      | ex _ => let a := fresh "a" in destruct H as (a & H)
      | _ = _ /\ _ => let E := fresh "E" in destruct H as (E & H); try subst
      | bastion.dexec ?p _ _ =>
          match p with
          | context [match ?x with _ => _ end] =>
              tryif is_var x then destruct x else destruct x eqn:?
          end
      end ];
  try subst.

(** X16: [NewClientWithBastion] dials the bastion, then the machine
    through the client of the bastion, then makes the client over that
    connection.  It closes nothing: when a later step fails it returns with
    the bastion client, and the connection through it, still open.  Its
    error wraps the error of the step that failed. *)
Theorem bastion_client_is_not_closed bCfg bHost bPort mCfg mHost mPort t r :
  bastion.dexec (bastion.NewClientWithBastion bCfg bHost bPort mCfg mHost mPort)
    t r ->
  (forall c res, ~ In (bastion.EClientClose c res) t) /\
  (forall c res, ~ In (bastion.EConnClose c res) t) /\
  (forall bc network addr res,
     In (bastion.EClientDialContext bc network addr res) t ->
     network = "tcp" /\ addr = bastion.hostport mHost mPort /\
     In (bastion.EDialContext "tcp" (bastion.hostport bHost bPort) bCfg (Ok bc))
        t) /\
  (forall conn addr cfg res,
     In (bastion.ENewClientConn conn addr cfg res) t ->
     addr = bastion.hostport mHost mPort /\ cfg = mCfg /\
     exists bc, In (bastion.EClientDialContext bc "tcp" addr (Ok conn)) t) /\
  (forall err, r = Fail err ->
     exists e0, Unwrap err = Some e0 /\
       (In (bastion.EDialContext "tcp" (bastion.hostport bHost bPort) bCfg
              (Fail e0)) t \/
        (exists bc, In (bastion.EClientDialContext bc "tcp"
                          (bastion.hostport mHost mPort) (Fail e0)) t) \/
        (exists conn, In (bastion.ENewClientConn conn
                            (bastion.hostport mHost mPort) mCfg (Fail e0)) t))).
Proof.
  intros H. unfold bastion.NewClientWithBastion in H.
  split; [|split; [|split; [|split]]].
  - intros c res Hin. dexec_explore H. all: in_cases Hin.
  - intros c res Hin. dexec_explore H. all: in_cases Hin.
  - intros bc network addr res Hin. dexec_explore H.
    all: in_cases Hin; simplify_eq; repeat split; in_list.
  - intros conn addr cfg res Hin. dexec_explore H.
    all: in_cases Hin; simplify_eq; repeat split; eexists; in_list.
  - intros err ->. dexec_explore H.
    all: try discriminate.
    all: injection H as ->; eexists; split; [reflexivity|].
    + right. right. eexists. in_list.
    + right. left. eexists. in_list.
    + left. in_list.
Qed.

Lemma bastion_client_is_not_closed_witness :
  let cfg := {| bastion.User := "core"; bastion.Signer := 0%nat |} in
  let e := ErrorString "ssh: rejected: connect failed" in
  let t := [bastion.EDialContext "tcp" "bastion.example:22" cfg (Ok 1%nat);
            bastion.EClientDialContext 1%nat "tcp" "10.0.0.7:22" (Fail e)] in
  bastion.dexec
    (bastion.NewClientWithBastion cfg "bastion.example" 22 cfg "10.0.0.7" 22)
    t (Fail (Errorf "error dialing machine via bastion: %w" [ArgW e])) /\
  forall res, ~ In (bastion.EClientClose 1%nat res) t.
Proof.
  intros cfg e t.
  assert (H : bastion.dexec
            (bastion.NewClientWithBastion cfg "bastion.example" 22 cfg
               "10.0.0.7" 22)
            t (Fail (Errorf "error dialing machine via bastion: %w" [ArgW e]))).
  { unfold bastion.NewClientWithBastion.
    cbn [bastion.dexec bastion.dbind bastion.dperform bastion.dev].
    eexists _, _. split; [reflexivity|].
    cbn [bastion.dexec bastion.dbind bastion.dperform bastion.dev].
    eexists _, _. split; [reflexivity|].
    cbn [bastion.dexec bastion.dbind bastion.dperform bastion.dev].
    split; reflexivity. }
  split; [exact H|].
  exact (proj1 (bastion_client_is_not_closed _ _ _ _ _ _ _ _ H) 1%nat).
Defined.
